(** * pybrasil: the Datamatrix renderer

    A shallow embedding of
    [pybrasil/codigo_barras/datamatrix/renderer.py] (class
    [DataMatrixRenderer]) and the properties of its border/handle
    transform and of its raster, ascii and DXF encoders.

    Python integers are [Z], Python lists are [list], [bytes] is
    [list byte], [str] is [string].  Python exceptions are the constructor
    [Raise] of the [result] type. *)

From Stdlib Require Import ZArith List Strings.String Strings.Ascii Strings.Byte Lia DecimalString Decimal.
From stdpp Require Import base list strings.

Local Open Scope Z_scope.

(** ** Python primitives used by the renderer *)

Module Py.

Inductive exn : Type := IndexError | ZeroDivisionError | TypeError.

Inductive result (A : Type) : Type :=
| Ok (a : A)
| Raise (e : exn).
Arguments Ok {A} a.
Arguments Raise {A} e.

Definition bind {A B} (c : result A) (k : A -> result B) : result B :=
  match c with
  | Ok a => k a
  | Raise e => Raise e
  end.

(** [for x in xs: body] threading the mutated object [s]. *)
Fixpoint for_ {A S} (xs : list A) (body : A -> S -> result S) (s : S)
  : result S :=
  match xs with
  | [] => Ok s
  | x :: xs' => bind (body x s) (for_ xs' body)
  end.

(** The same loop when the body cannot raise. *)
Definition for_pure {A S} (xs : list A) (body : A -> S -> S) (s : S) : S :=
  fold_left (fun acc x => body x acc) xs s.

(** [len(l)] *)
Definition len {A} (l : list A) : Z := Z.of_nat (length l).

(** [range(n)] *)
Definition range (n : Z) : list Z := map Z.of_nat (seq 0 (Z.to_nat n)).

(** [range(start, stop, step)] for a non-zero constant [step]. *)
Definition range3 (start stop step : Z) : list Z :=
  let count :=
    if (0 <? step) && (start <? stop) then (stop - start - 1) / step + 1
    else if (step <? 0) && (stop <? start) then (start - stop - 1) / (- step) + 1
    else 0 in
  map (fun k => start + k * step) (range count).

(** [range(start, stop)] *)
Definition range2 (start stop : Z) : list Z := range3 start stop 1.

(** [enumerate(l)] *)
Definition enumerate {A} (l : list A) : list (Z * A) :=
  combine (range (len l)) l.

(** [l * n]: repetition of a list; empty when [n <= 0]. *)
Fixpoint repeat_list {A} (l : list A) (n : nat) : list A :=
  match n with
  | O => []
  | S n' => l ++ repeat_list l n'
  end.
Definition mul {A} (l : list A) (n : Z) : list A := repeat_list l (Z.to_nat n).

(** [a // b] and [a % b]: floor division, as [Z.div] and [Z.modulo]. *)
Definition floordiv (a b : Z) : result Z :=
  if b =? 0 then Raise ZeroDivisionError else Ok (a / b).
Definition mod_ (a b : Z) : result Z :=
  if b =? 0 then Raise ZeroDivisionError else Ok (a mod b).

(** Subscript normalisation: a negative index counts from the end. *)
Definition index (n : nat) (i : Z) : result nat :=
  if (0 <=? i) && (i <? Z.of_nat n) then Ok (Z.to_nat i)
  else if (- Z.of_nat n <=? i) && (i <? 0) then Ok (Z.to_nat (Z.of_nat n + i))
  else Raise IndexError.

(** [l[i]] *)
Definition getitem {A} (l : list A) (i : Z) : result A :=
  bind (index (length l) i) (fun k =>
    match l !! k with
    | Some x => Ok x
    | None => Raise IndexError
    end).

(** [l[i] = x] *)
Definition setitem {A} (l : list A) (i : Z) (x : A) : result (list A) :=
  bind (index (length l) i) (fun k => Ok (<[k:=x]> l)).

(** Slice bound normalisation and [l[a:b]]. *)
Definition clamp (n : nat) (i : Z) : nat :=
  if i <? 0 then Z.to_nat (Z.max (Z.of_nat n + i) 0)
  else Z.to_nat (Z.min i (Z.of_nat n)).
Definition slice {A} (l : list A) (a b : Z) : list A :=
  let a' := clamp (length l) a in
  let b' := clamp (length l) b in
  take (b' - a')%nat (drop a' l).

(** [str(n)] for an integer. *)
Definition str (n : Z) : string := NilZero.string_of_int (Z.to_int n).

(** [bool(n)] for an integer. *)
Definition bool_ (n : Z) : bool := negb (n =? 0).

(** A string literal of the source: the two characters backslash and n
    stand for a line feed. *)
Fixpoint lit (s : string) : string :=
  match s with
  | EmptyString => EmptyString
  | String "\" (String "n" s') => String "010" (lit s')
  | String c s' => String c (lit s')
  end.

(** [sep.join(items)] for items that are all strings. *)
Definition join_str (sep : string) (items : list string) : string :=
  String.concat sep items.

(** [sep.join(items)] in general: an item that is [None] raises
    [TypeError]. *)
Fixpoint all_str (items : list (option string)) : option (list string) :=
  match items with
  | [] => Some []
  | None :: _ => None
  | Some s :: rest =>
      match all_str rest with
      | Some ss => Some (s :: ss)
      | None => None
      end
  end.
Definition join (sep : string) (items : list (option string)) : result string :=
  match all_str items with
  | Some ss => Ok (join_str sep ss)
  | None => Raise TypeError
  end.

(** [b * n] on an optional bytes value: [None * n] raises [TypeError]. *)
Definition bytes_mul (b : option (list byte)) (n : Z) : result (list byte) :=
  match b with
  | Some b => Ok (mul b n)
  | None => Raise TypeError
  end.

(** A list comprehension [[f x for x in xs]] whose body may raise. *)
Fixpoint comprehension {A B} (f : A -> result B) (xs : list A)
  : result (list B) :=
  match xs with
  | [] => Ok []
  | x :: xs' =>
      bind (f x) (fun y => bind (comprehension f xs') (fun ys => Ok (y :: ys)))
  end.

End Py.

Import Py.

Notation "'let!' x ':=' c 'in' k" := (bind c (fun x => k))
  (at level 10, x name, c at level 100, k at level 200).

(** ** The renderer *)

Abbreviation Matrix := (list (list Z)).

(** [repr(row)] for a list of integers. *)
Definition repr_list (row : list Z) : string :=
  "[" +:+ join_str ", " (map str row) +:+ "]".

(** [repr_matrix] *)
Definition repr_matrix (matrix : Matrix) : string :=
  join_str (lit "\n") (map repr_list matrix).

Record Renderer : Type := mkRenderer {
  width : Z;
  height : Z;
  regions : Z;
  region_size : Z;
  quiet_zone : Z;
  matrix : Matrix
}.

Definition set_matrix (self : Renderer) (m : Matrix) : Renderer :=
  mkRenderer (width self) (height self) (regions self) (region_size self)
             (quiet_zone self) m.

(** [put_cell]: [self.matrix[posy][posx] = colour].  The rows built by
    [add_border] are distinct list objects, so writing the updated row back
    at its index is the in-place mutation. *)
Definition put_cell_matrix (position : Z * Z) (colour : Z) (m : Matrix)
  : result Matrix :=
  let '(posx, posy) := position in
  let! row := getitem m posy in
  let! row' := setitem row posx colour in
  setitem m posy row'.

Definition put_cell (self : Renderer) (position : Z * Z) (colour : Z)
  : result Renderer :=
  let! m := put_cell_matrix position colour (matrix self) in
  Ok (set_matrix self m).

(** [add_handles] *)
Definition add_handles (self : Renderer) : result Renderer :=
  for_ (range (regions self)) (fun x_index self =>
    for_ (range (regions self)) (fun y_index self =>
      let x_origin := x_index * (region_size self + 2) + quiet_zone self in
      let y_origin := y_index * (region_size self + 2) + quiet_zone self in
      let x_max := x_origin + region_size self + 1 in
      let y_max := y_origin + region_size self + 1 in
      (* bottom solid border *)
      let! self := for_ (range2 x_origin x_max)
                (fun posx self => put_cell self (posx, y_max) 1) self in
      (* left solid border *)
      let! self := for_ (range2 y_origin y_max)
                (fun posy self => put_cell self (x_origin, posy) 1) self in
      (* top broken border *)
      let! self := for_ (range3 x_origin x_max 2)
                (fun i self => put_cell self (i, y_origin) 1) self in
      (* right broken border *)
      for_ (range3 y_max y_origin (-2))
        (fun i self => put_cell self (x_max, i) 1) self) self) self.

(** [add_border] *)
Definition add_border (self : Renderer) (colour : Z) : result Renderer :=
  let a_gap := 1 in
  let width' := width self + a_gap * 2 + quiet_zone self * 2
                + (regions self - 1) * a_gap * 2 in
  let height' := height self + a_gap * 2 + quiet_zone self * 2
                 + (regions self - 1) * a_gap * 2 in
  let new_matrix : Matrix := [] in
  let new_matrix :=
    for_pure (range (a_gap + quiet_zone self))
      (fun _ new_matrix => new_matrix ++ [mul [colour] width']) new_matrix in
  let! new_matrix :=
    for_ (enumerate (matrix self)) (fun '(row_n, row) new_matrix =>
      let! seam := (if 0 <? row_n
                    then let! r := mod_ row_n (region_size self) in Ok (r =? 0)
                    else Ok false) in
      let new_matrix :=
        if seam : bool
        then (* Vertical gap between regions *)
          for_pure (range (a_gap * 2))
            (fun _ new_matrix => new_matrix ++ [mul [colour] width']) new_matrix
        else new_matrix in
      (* Left gap *)
      let new_row := mul [colour] (a_gap + quiet_zone self) in
      (* Split according to regions *)
      let new_row :=
        for_pure (range (regions self)) (fun i new_row =>
          let part := slice row (i * region_size self)
                            ((i + 1) * region_size self) in
          let new_row :=
            if 0 <? i
            then (* Add the space for the alignment gap *)
              new_row ++ mul [colour] (a_gap * 2)
            else new_row in
          new_row ++ part) new_row in
      (* Right gap *)
      let new_row := new_row ++ mul [colour] (a_gap + quiet_zone self) in
      Ok (new_matrix ++ [new_row])) new_matrix in
  let new_matrix :=
    for_pure (range (a_gap + quiet_zone self))
      (fun _ new_matrix => new_matrix ++ [mul [colour] width']) new_matrix in
  Ok (mkRenderer width' height' (regions self) (region_size self)
                 (quiet_zone self) new_matrix).

(** [__init__] *)
Definition init (matrix : Matrix) (regions : Z) : result Renderer :=
  let width := len matrix in
  let! row0 := getitem matrix 0 in
  let height := len row0 in
  let! region_size := floordiv width regions in
  let quiet_zone := 0 in
  let self := mkRenderer width height regions region_size quiet_zone matrix in
  (* grow the matrix in preparation for the handles *)
  let! self := add_border self 0 in
  (* add the edge handles *)
  add_handles self.

(** ** The encoders *)

(** [get_buffer] and its local function [pixel]. *)
Definition pixel (value : Z) : option (list byte) :=
  if value =? 0 then Some [xff]
  else if value =? 1 then Some [x00]
  else None.

Definition get_buffer (self : Renderer) (cellsize : Z) : result (list byte) :=
  (* PIL writes image buffers from the bottom up,
     so feed in the rows in reverse *)
  let buf : list byte := [] in
  for_ (rev (matrix self)) (fun row buf =>
    let! cells := comprehension (fun cell => bytes_mul (pixel cell) cellsize) row in
    let bufrow := concat cells in
    Ok (for_pure (range2 0 cellsize) (fun _ buf => buf ++ bufrow) buf)) buf.

(** [get_ascii] and its local function [symbol]. *)
Definition symbol (value : Z) : option string :=
  if value =? 0 then Some "  "%string
  else if value =? 1 then Some "XX"%string
  else None.

Definition get_ascii (self : Renderer) : result string :=
  let! rows := comprehension (fun row => join "" (map symbol row)) (matrix self) in
  Ok (join_str (lit "\n") rows +:+ lit "\n").

(** [get_dxf] and its local functions [coord] and [solid]. *)
Definition coord (x y c : Z) : string :=
  join_str (lit "\n") [str (10 + c); str x; str (20 + c); str y; str (30 + c); str 0; ""%string].

Definition solid (x y w h : Z) : string :=
  (* calculate corner coordinates *)
  let cl := [(x, y, 0); (x + w, y, 1); (x, y - h, 2); (x + w, y - h, 3)] in
  lit "0\nSOLID\n8\nbarcode\n"
  +:+ join_str "" (map (fun '(x, y, c) => coord x y c) cl).

Definition get_dxf (self : Renderer) (cellsize : Z) (inverse : bool)
  (units : string) : string :=
  let dxf : list string := [] in
  let dxf := dxf ++ [lit "0\nSECTION\n2\nHEADER\n"] in
  let dxf := dxf ++ [lit "9\n$ACADVER\n1\nAC1006\n"] in
  let dxf := dxf ++ [lit "9\n$INSUNITS\n70\n"] in
  let dxf := dxf ++ [if String.eqb units "mm" then lit "4\n" else lit "0\n"] in
  let dxf := dxf ++ [lit "0\nENDSEC\n0\nSECTION\n2\nENTITIES\n"] in
  let dxf := dxf ++
    map (fun '(y, row) =>
           join_str ""
             (map (fun '(x, val) =>
                     if negb (Bool.eqb (bool_ val) inverse)
                     then solid (x * cellsize) ((height self - y) * cellsize)
                                cellsize cellsize
                     else ""%string)
                  (enumerate row)))
        (enumerate (matrix self)) in
  let dxf := dxf ++ [lit "0\nENDSEC\n0\nEOF\n"] in
  join_str "" dxf.

(** The grid of [h] rows of [w] zeros. *)
Definition zeros (w h : nat) : Matrix := repeat (repeat 0 w) h.

(** A renderer holding [m] as the code's fields describe it: [width] is the
    number of rows and [height] the length of the rows. *)
Definition grid (m : Matrix) : Renderer :=
  mkRenderer (len m) (match m with [] => 0 | r :: _ => len r end) 1 0 0 m.

(** Every cell is 0 or 1. *)
Definition binary_cell (c : Z) : Prop := c = 0 \/ c = 1.
Definition binary (m : Matrix) : Prop := Forall (Forall binary_cell) m.

(** The fields agree with the matrix, the way [__init__] and [add_border]
    set them. *)
Definition well_formed (self : Renderer) : Prop :=
  len (matrix self) = width self /\
  Forall (fun row => len row = height self) (matrix self).

(** ** Vocabulary of the properties *)

(** Being a grid of 0/1 cells is decidable. *)
Global Instance binary_cell_dec (c : Z) : Decision (binary_cell c).
Proof. unfold binary_cell. apply _. Defined.

Global Instance binary_dec (m : Matrix) : Decision (binary m).
Proof. unfold binary. apply _. Defined.

(** The byte of a cell: white for 0, black otherwise. *)
Definition byte_of (cell : Z) : byte := if cell =? 0 then xff else x00.

(** A pixel line: every cell of the row [cellsize] times. *)
Definition pixel_line (cellsize : Z) (row : list Z) : list byte :=
  flat_map (fun cell => repeat (byte_of cell) (Z.to_nat cellsize)) row.

(** The pixel lines of a grid row: its pixel line [cellsize] times. *)
Definition pixel_block (cellsize : Z) (row : list Z) : list byte :=
  concat (repeat (pixel_line cellsize row) (Z.to_nat cellsize)).

(** The two characters of a cell, and the text of a row. *)
Definition sym_of (cell : Z) : string := if cell =? 0 then "  " else "XX".

Definition row_text (row : list Z) : string := join_str "" (map sym_of row).

(** The line feed character. *)
Definition LF : ascii := "010"%char.

(** The pieces of a text between line feeds, as [text.split("\n")]. *)
Fixpoint text_lines (s : string) : list string :=
  match s with
  | EmptyString => [EmptyString]
  | String c s' =>
      if Ascii.eqb c LF then EmptyString :: text_lines s'
      else match text_lines s' with
           | [] => [String c EmptyString]
           | l :: ls => String c l :: ls
           end
  end.

(** Every line followed by a line feed. *)
Fixpoint unlines (ls : list string) : string :=
  match ls with
  | [] => EmptyString
  | l :: ls' => l +:+ String LF (unlines ls')
  end.

(** No line feed in a string. *)
Fixpoint one_line (s : string) : bool :=
  match s with
  | EmptyString => true
  | String c s' => negb (Ascii.eqb c LF) && one_line s'
  end.

(** Only the characters of a decimal integer. *)
Fixpoint numeric (s : string) : bool :=
  match s with
  | EmptyString => true
  | String c s' =>
      (Ascii.eqb c "-" || (Nat.leb 48 (nat_of_ascii c) && Nat.leb (nat_of_ascii c) 57))
      && numeric s'
  end.

(** The strings of a list, one after the other. *)
Definition concat_str (ls : list string) : string :=
  fold_right String.append EmptyString ls.

(** A cell is drawn when its truth value differs from [inverse]. *)
Definition foreground (val : Z) (inverse : bool) : bool :=
  xorb (bool_ val) inverse.

(** The drawn cells [(x, y)], rows top down and left to right in a row. *)
Definition foreground_cells (self : Renderer) (inverse : bool) : list (Z * Z) :=
  flat_map (fun '(y, row) =>
              flat_map (fun '(x, val) =>
                          if foreground val inverse then [(x, y)] else [])
                       (enumerate row))
           (enumerate (matrix self)).

(** A SOLID entity: its layer and its four corners. *)
Record Solid : Type := mkSolid {
  layer : string;
  corner1 : Z * Z;
  corner2 : Z * Z;
  corner3 : Z * Z;
  corner4 : Z * Z
}.

(** The group code / value lines of a SOLID entity. *)
Definition solid_lines (e : Solid) : list string :=
  [ "0"; "SOLID"; "8"; layer e;
    "10"; str (fst (corner1 e)); "20"; str (snd (corner1 e)); "30"; "0";
    "11"; str (fst (corner2 e)); "21"; str (snd (corner2 e)); "31"; "0";
    "12"; str (fst (corner3 e)); "22"; str (snd (corner3 e)); "32"; "0";
    "13"; str (fst (corner4 e)); "23"; str (snd (corner4 e)); "33"; "0" ]%string.

(** The entity of the cell [(x, y)]. *)
Definition cell_solid (self : Renderer) (cellsize : Z) (p : Z * Z) : Solid :=
  let '(x, y) := p in
  mkSolid "barcode"
    (x * cellsize, (height self - y) * cellsize)
    (x * cellsize + cellsize, (height self - y) * cellsize)
    (x * cellsize, (height self - y) * cellsize - cellsize)
    (x * cellsize + cellsize, (height self - y) * cellsize - cellsize).

Definition header_lines (unit_code : Z) : list string :=
  [ "0"; "SECTION"; "2"; "HEADER"; "9"; "$ACADVER"; "1"; "AC1006";
    "9"; "$INSUNITS"; "70"; str unit_code;
    "0"; "ENDSEC"; "0"; "SECTION"; "2"; "ENTITIES" ]%string.

Definition footer_lines : list string := [ "0"; "ENDSEC"; "0"; "EOF" ]%string.

(** The number of SOLID entities of a DXF text. *)
Definition dxf_entity_count (text : string) : nat :=
  length (filter (fun l => l = "SOLID"%string) (text_lines text)).

(** The cell at column [x] of row [y], for non-negative [x] and [y]. *)
Definition cell_at (m : Matrix) (p : Z * Z) : option Z :=
  let '(x, y) := p in
  if (0 <=? x) && (0 <=? y)
  then match m !! Z.to_nat y with
       | Some row => row !! Z.to_nat x
       | None => None
       end
  else None.

(** A row of the text read back pair by pair: two spaces are a 0, two X
    are a 1. *)
Fixpoint parse_row (line : string) : option (list Z) :=
  match line with
  | EmptyString => Some []
  | String " " (String " " rest) => cons 0 <$> parse_row rest
  | String "X" (String "X" rest) => cons 1 <$> parse_row rest
  | _ => None
  end.

Fixpoint parse_rows (lines : list string) : option (list (list Z)) :=
  match lines with
  | [] => Some []
  | l :: ls =>
      match parse_row l, parse_rows ls with
      | Some row, Some rows => Some (row :: rows)
      | _, _ => None
      end
  end.

(** The text read back: its lines, without the empty piece that follows the
    trailing line feed. *)
Definition parse_ascii (text : string) : option (list (list Z)) :=
  parse_rows (removelast (text_lines text)).

(** The cells stamped by [add_handles], in the order of its loops. *)
Definition handle_cells (self : Renderer) : list (Z * Z) :=
  flat_map (fun x_index =>
    flat_map (fun y_index =>
      let x_origin := x_index * (region_size self + 2) + quiet_zone self in
      let y_origin := y_index * (region_size self + 2) + quiet_zone self in
      let x_max := x_origin + region_size self + 1 in
      let y_max := y_origin + region_size self + 1 in
      map (fun posx => (posx, y_max)) (range2 x_origin x_max)
      ++ map (fun posy => (x_origin, posy)) (range2 y_origin y_max)
      ++ map (fun i => (i, y_origin)) (range3 x_origin x_max 2)
      ++ map (fun i => (x_max, i)) (range3 y_max y_origin (-2)))
      (range (regions self)))
    (range (regions self)).

(** [self.matrix[posy][posx]] read back. *)
Definition read (m : Matrix) (p : Z * Z) : result Z :=
  let '(x, y) := p in
  let! row := getitem m y in
  getitem row x.

(** The cells [ps] set to 1 one after the other. *)
Definition stamp_matrix (ps : list (Z * Z)) (m : Matrix) : result Matrix :=
  for_ ps (fun p m => put_cell_matrix p 1 m) m.

Definition stamp (ps : list (Z * Z)) (self : Renderer) : result Renderer :=
  for_ ps (fun p self => put_cell self p 1) self.

(** The cells stamped around the region [(x_index, y_index)]. *)
Definition region_handle_cells (self : Renderer) (x_index y_index : Z)
  : list (Z * Z) :=
  let x_origin := x_index * (region_size self + 2) + quiet_zone self in
  let y_origin := y_index * (region_size self + 2) + quiet_zone self in
  let x_max := x_origin + region_size self + 1 in
  let y_max := y_origin + region_size self + 1 in
  map (fun posx => (posx, y_max)) (range2 x_origin x_max)
  ++ map (fun posy => (x_origin, posy)) (range2 y_origin y_max)
  ++ map (fun i => (i, y_origin)) (range3 x_origin x_max 2)
  ++ map (fun i => (x_max, i)) (range3 y_max y_origin (-2)).

(** The new width (and, from the height, the new height). *)
Definition grown (self : Renderer) (side : Z) : Z :=
  side + 1 * 2 + quiet_zone self * 2 + (regions self - 1) * 1 * 2.

(** A full row of the border colour. *)
Definition blank_row (self : Renderer) (colour : Z) : list Z :=
  mul [colour] (grown self (width self)).

(** The row built from an input row: the left gap, the parts of the row with
    the alignment gaps between them, the right gap. *)
Definition border_row (self : Renderer) (colour : Z) (row : list Z) : list Z :=
  for_pure (range (regions self)) (fun i new_row =>
    let part := slice row (i * region_size self) ((i + 1) * region_size self) in
    let new_row :=
      if 0 <? i then new_row ++ mul [colour] (1 * 2) else new_row in
    new_row ++ part) (mul [colour] (1 + quiet_zone self))
  ++ mul [colour] (1 + quiet_zone self).

(** The rows added for an input row: the seam before it, when its index is
    a non-zero multiple of the region size, and its bordered row. *)
Definition border_rows (self : Renderer) (colour : Z) (item : Z * list Z)
  : list (list Z) :=
  let '(row_n, row) := item in
  (if (0 <? row_n) && (row_n mod region_size self =? 0)
   then [blank_row self colour; blank_row self colour] else [])
  ++ [border_row self colour row].

(** The first [count] consecutive pieces of [size] elements of a list. *)
Definition chunks {A} (size count : nat) (l : list A) : list (list A) :=
  map (fun j => take size (drop (j * size) l)) (seq 0 count).

(** [enumerate] from a starting index. *)
Definition enum_from {A} (s : nat) (l : list A) : list (Z * A) :=
  combine (map Z.of_nat (seq s (length l))) l.

(** A part of a row between its two gap cells, and a block of rows between
    its two gap rows. *)
Definition frame_part (colour : Z) (part : list Z) : list Z :=
  [colour] ++ part ++ [colour].

Definition frame_block (self : Renderer) (colour : Z) (block : list (list Z))
  : list (list Z) :=
  [blank_row self colour] ++ map (border_row self colour) block
  ++ [blank_row self colour].

(** The pieces of a list, each between two copies of [a]. *)
Definition frames {A} (a : A) (size count : nat) (l : list A) : list A :=
  concat (map (fun part => [a] ++ part ++ [a]) (chunks size count l)).

(** The grid after [add_border]: every row framed part by part, and the
    rows framed block by block with full rows of the colour. *)
Definition bordered (colour : Z) (count size : nat) (m : list (list Z))
  : list (list Z) :=
  frames (repeat colour (count * (size + 2))) size count
         (map (frames colour size count) m).

(** A square grid of side [n]. *)
Definition square (n : nat) (m : list (list Z)) : Prop :=
  length m = n /\ Forall (fun row => length row = n) m.

(** A grid of [h] rows of [w] cells, and a position inside it. *)
Definition rect (w h : nat) (m : list (list Z)) : Prop :=
  length m = h /\ Forall (fun row => length row = w) m.

Definition in_grid (w h : nat) (p : Z * Z) : Prop :=
  0 <= p.1 < Z.of_nat w /\ 0 <= p.2 < Z.of_nat h.

(** An index of the bordered grid that falls in a gap: the first or the last
    index of a block of [size + 2]. *)
Definition gap_index (size i : Z) : bool :=
  (i mod (size + 2) =? 0) || (i mod (size + 2) =? size + 1).

(** A cell inserted by [add_border]: its column or its row is a gap. *)
Definition border_cell (size : Z) (p : Z * Z) : bool :=
  gap_index size p.1 || gap_index size p.2.

(** The index in the input grid of an index that is not in a gap. *)
Definition source_index (size i : Z) : Z :=
  i / (size + 2) * size + i mod (size + 2) - 1.

Global Instance square_dec (n : nat) (m : list (list Z)) : Decision (square n m).
Proof. unfold square. apply _. Defined.

(** A cell stamped by [add_handles], by its offsets in its block of
    [size + 2]: the whole bottom row but its last cell, the whole left
    column but its last cell, every other cell of the top row from its
    first cell, every other cell of the right column from its last cell. *)
Definition handle_cell (size : Z) (p : Z * Z) : bool :=
  let ox := p.1 mod (size + 2) in
  let oy := p.2 mod (size + 2) in
  (oy =? size + 1) && (ox <=? size)
  || (ox =? 0) && (oy <=? size)
  || (oy =? 0) && (ox <=? size) && (ox mod 2 =? 0)
  || (ox =? size + 1) && (1 <=? oy) && ((size + 1 - oy) mod 2 =? 0).

(** The index in the bordered grid of the index [i] of the input grid. *)
Definition dest_index (size i : Z) : Z := i + 1 + 2 * (i / size).

(** A subscript counted from the end when it is negative. *)
Definition wrap (n : nat) (i : Z) : Z := if i <? 0 then i + Z.of_nat n else i.

(** * Properties *)

(** ** Loops and ranges *)

Section Loops.
Context {A S : Type}.

Lemma for_app (xs ys : list A) (body : A -> S -> result S) (s : S) :
  for_ (xs ++ ys) body s = bind (for_ xs body s) (for_ ys body).
Proof.
  revert s. induction xs as [|x xs IH]; intros s; simpl; [done|].
  destruct (body x s); simpl; [apply IH | done].
Qed.

Lemma for_pure_app (xs ys : list A) (body : A -> S -> S) (s : S) :
  for_pure (xs ++ ys) body s = for_pure ys body (for_pure xs body s).
Proof. unfold for_pure. apply fold_left_app. Qed.

Lemma for_ext (xs : list A) (f g : A -> S -> result S) (s : S) :
  (forall x s, x ∈ xs -> f x s = g x s) -> for_ xs f s = for_ xs g s.
Proof.
  revert s. induction xs as [|x xs IH]; intros s H; simpl; [done|].
  rewrite H by left. destruct (g x s); simpl; [|done].
  apply IH. intros; apply H. by right.
Qed.
End Loops.

Lemma for_pure_snoc_const {A B} (xs : list A) (row : list B) (acc : list B) :
  for_pure xs (fun _ acc => acc ++ row) acc
  = acc ++ concat (repeat row (length xs)).
Proof.
  revert acc. induction xs as [|x xs IH]; intros acc; simpl.
  - by rewrite app_nil_r.
  - unfold for_pure in *. simpl. rewrite IH. by rewrite <- app_assoc.
Qed.

Lemma length_range (n : Z) : length (range n) = Z.to_nat n.
Proof. unfold range. by rewrite length_map, length_seq. Qed.

Lemma lookup_range (n : Z) (k : nat) :
  (k < Z.to_nat n)%nat -> range n !! k = Some (Z.of_nat k).
Proof.
  intros H. unfold range. rewrite list_lookup_fmap.
  rewrite lookup_seq_lt by done. done.
Qed.

Lemma elem_of_range (n i : Z) : i ∈ range n <-> 0 <= i < n.
Proof.
  unfold range. rewrite list_elem_of_fmap. split.
  - intros (k & -> & Hk). apply elem_of_seq in Hk. lia.
  - intros H. exists (Z.to_nat i). split; [lia|]. apply elem_of_seq. lia.
Qed.

Lemma range_succ (n : nat) :
  range (Z.of_nat (S n)) = range (Z.of_nat n) ++ [Z.of_nat n].
Proof.
  unfold range. rewrite !Nat2Z.id. rewrite seq_S. by rewrite map_app.
Qed.

Lemma range_nonpos (n : Z) : n <= 0 -> range n = [].
Proof. intros H. unfold range. by replace (Z.to_nat n) with O by lia. Qed.

Lemma range2_eq (a b : Z) : range2 a b = map (fun k => a + k) (range (b - a)).
Proof.
  unfold range2, range3. simpl.
  destruct (a <? b) eqn:E.
  - rewrite Z.div_1_r. replace (b - a - 1 + 1) with (b - a) by lia.
    apply map_ext. intros; lia.
  - apply Z.ltb_ge in E. by rewrite !range_nonpos by lia.
Qed.

Lemma length_range2 (a b : Z) : length (range2 a b) = Z.to_nat (b - a).
Proof. by rewrite range2_eq, length_map, length_range. Qed.

Lemma elem_of_range2 (a b i : Z) : i ∈ range2 a b <-> a <= i < b.
Proof.
  rewrite range2_eq, list_elem_of_fmap. split.
  - intros (k & -> & Hk). apply elem_of_range in Hk. lia.
  - intros H. exists (i - a). split; [lia|]. apply elem_of_range. lia.
Qed.

Lemma mul_singleton {A} (c : A) (n : Z) : mul [c] n = repeat c (Z.to_nat n).
Proof. unfold mul. induction (Z.to_nat n); simpl; congruence. Qed.

Lemma length_mul_singleton {A} (c : A) (n : Z) :
  length (mul [c] n) = Z.to_nat n.
Proof. by rewrite mul_singleton, repeat_length. Qed.

(** ** Exceptions in comprehensions and loops *)

Lemma comprehension_ok {A B} (f : A -> result B) (g : A -> B) (xs : list A) :
  Forall (fun x => f x = Ok (g x)) xs -> comprehension f xs = Ok (map g xs).
Proof.
  induction 1 as [|x xs Hx _ IH]; simpl; [done|]. by rewrite Hx, IH.
Qed.

Lemma comprehension_raise {A B} (f : A -> result B) (e : exn) (xs : list A) :
  (forall x e', f x = Raise e' -> e' = e) ->
  Exists (fun x => f x = Raise e) xs -> comprehension f xs = Raise e.
Proof.
  intros Hf. induction 1 as [x xs Hx|x xs _ IH]; simpl.
  - by rewrite Hx.
  - destruct (f x) as [y|e'] eqn:E; simpl.
    + by rewrite IH.
    + by rewrite (Hf _ _ E).
Qed.

Lemma for_snoc_ok {A B} (xs : list A) (body : A -> list B -> result (list B))
  (h : A -> list B) (s : list B) :
  Forall (fun x => forall s, body x s = Ok (s ++ h x)) xs ->
  for_ xs body s = Ok (s ++ concat (map h xs)).
Proof.
  intros H. revert s. induction H as [|x xs Hx _ IH]; intros s; simpl.
  - by rewrite app_nil_r.
  - rewrite Hx. simpl. rewrite IH. by rewrite <- app_assoc.
Qed.

Lemma for_raise {A S} (xs : list A) (body : A -> S -> result S) (e : exn) (s : S) :
  (forall x s e', body x s = Raise e' -> e' = e) ->
  Exists (fun x => forall s, body x s = Raise e) xs -> for_ xs body s = Raise e.
Proof.
  intros Hb H. revert s. induction H as [x xs Hx|x xs _ IH]; intros s; simpl.
  - by rewrite Hx.
  - destruct (body x s) as [s'|e'] eqn:E; simpl; [apply IH|].
    by rewrite (Hb _ _ _ E).
Qed.

Lemma length_concat_uniform {A} (ls : list (list A)) (k : nat) :
  Forall (fun l => length l = k) ls -> length (concat ls) = (length ls * k)%nat.
Proof.
  induction 1 as [|l ls Hl _ IH]; simpl; [done|].
  rewrite length_app. lia.
Qed.

Lemma length_flat_map_uniform {A B} (f : A -> list B) (l : list A) (k : nat) :
  (forall x, length (f x) = k) -> length (flat_map f l) = (length l * k)%nat.
Proof.
  intros H. induction l as [|x l IH]; simpl; [done|].
  rewrite length_app, H, IH. lia.
Qed.

(** ** Cells outside {0, 1} *)

(** Closed decidable facts, by evaluation. *)
Ltac by_decide :=
  lazymatch goal with
  | |- ~ ?P => apply (@bool_decide_eq_false_1 P _); vm_compute; reflexivity
  | |- ?P => apply (@bool_decide_eq_true_1 P _); vm_compute; reflexivity
  end.

Lemma pixel_binary (c : Z) : binary_cell c <-> is_Some (pixel c).
Proof.
  unfold binary_cell, pixel. split.
  - intros [-> | ->]; simpl; eauto.
  - destruct (Z.eqb_spec c 0); [by left|].
    destruct (Z.eqb_spec c 1); [by right|]. by intros [? ?].
Qed.

Lemma symbol_binary (c : Z) : binary_cell c <-> is_Some (symbol c).
Proof.
  unfold binary_cell, symbol. split.
  - intros [-> | ->]; simpl; eauto.
  - destruct (Z.eqb_spec c 0); [by left|].
    destruct (Z.eqb_spec c 1); [by right|]. by intros [? ?].
Qed.

Lemma not_binary_cell (c : Z) :
  ~ binary_cell c -> pixel c = None /\ symbol c = None.
Proof.
  intros H. split.
  - destruct (pixel c) eqn:E; [|done]. destruct H. apply pixel_binary. eauto.
  - destruct (symbol c) eqn:E; [|done]. destruct H. apply symbol_binary. eauto.
Qed.

Lemma not_binary (m : Matrix) :
  ~ binary m -> Exists (Exists (fun c => ~ binary_cell c)) m.
Proof.
  intros H. apply not_Forall_Exists in H; [|apply _].
  eapply Exists_impl; [exact H|]. intros row Hrow.
  by apply not_Forall_Exists in Hrow; [|apply _].
Qed.

(** ** The raster buffer *)

Lemma pixel_binary_cell (c : Z) : binary_cell c -> pixel c = Some [byte_of c].
Proof. by intros [-> | ->]. Qed.

Lemma bufrow_ok (cellsize : Z) (row : list Z) :
  Forall binary_cell row ->
  comprehension (fun cell => bytes_mul (pixel cell) cellsize) row
  = Ok (map (fun cell => repeat (byte_of cell) (Z.to_nat cellsize)) row).
Proof.
  intros H. apply comprehension_ok. eapply Forall_impl; [exact H|].
  intros c Hc; simpl. rewrite (pixel_binary_cell _ Hc). simpl.
  by rewrite mul_singleton.
Qed.

Lemma bufrow_raise (cellsize : Z) (row : list Z) :
  Exists (fun c => ~ binary_cell c) row ->
  comprehension (fun cell => bytes_mul (pixel cell) cellsize) row
  = Raise TypeError.
Proof.
  intros H. apply comprehension_raise.
  - intros c e'. destruct (pixel c); simpl; congruence.
  - eapply Exists_impl; [exact H|]. intros c Hc; simpl.
    by rewrite (proj1 (not_binary_cell _ Hc)).
Qed.

Lemma get_buffer_ok (self : Renderer) (cellsize : Z) :
  binary (matrix self) ->
  get_buffer self cellsize
  = Ok (concat (map (pixel_block cellsize) (rev (matrix self)))).
Proof.
  intros H. unfold get_buffer.
  rewrite (for_snoc_ok _ _ (pixel_block cellsize)); [done|].
  apply Forall_rev. eapply Forall_impl; [exact H|].
  intros row Hrow buf; simpl. rewrite (bufrow_ok _ _ Hrow). simpl.
  rewrite for_pure_snoc_const, length_range2, Z.sub_0_r.
  unfold pixel_block, pixel_line. by rewrite flat_map_concat_map.
Qed.

Lemma get_buffer_raise (self : Renderer) (cellsize : Z) :
  ~ binary (matrix self) -> get_buffer self cellsize = Raise TypeError.
Proof.
  intros H. unfold get_buffer. apply for_raise.
  - intros row buf e'.
    destruct (comprehension _ row) as [cells|e] eqn:E; simpl; [done|].
    intros [= <-].
    destruct (decide (Forall binary_cell row)) as [Hrow|Hrow].
    + rewrite (bufrow_ok _ _ Hrow) in E. done.
    + apply not_Forall_Exists in Hrow; [|apply _].
      rewrite (bufrow_raise _ _ Hrow) in E. congruence.
  - apply Exists_exists. apply not_binary in H.
    apply Exists_exists in H as (row & Hin & Hrow).
    exists row. split; [apply list_elem_of_In; apply -> in_rev; by apply list_elem_of_In|].
    intros buf. by rewrite (bufrow_raise _ _ Hrow).
Qed.

Lemma length_pixel_line (cellsize : Z) (row : list Z) :
  length (pixel_line cellsize row) = (length row * Z.to_nat cellsize)%nat.
Proof.
  unfold pixel_line. apply length_flat_map_uniform.
  intros c. apply repeat_length.
Qed.

Lemma length_pixel_block (cellsize : Z) (row : list Z) :
  length (pixel_block cellsize row)
  = (Z.to_nat cellsize * (length row * Z.to_nat cellsize))%nat.
Proof.
  unfold pixel_block.
  rewrite (length_concat_uniform _ (length row * Z.to_nat cellsize)).
  - by rewrite repeat_length.
  - apply Forall_forall. intros l Hl. apply list_elem_of_In in Hl.
    apply repeat_spec in Hl as ->. apply length_pixel_line.
Qed.

Lemma pixel_block_bytes (cellsize : Z) (row : list Z) :
  Forall (fun b => b = xff \/ b = x00) (pixel_block cellsize row).
Proof.
  apply Forall_forall. intros b Hb. apply list_elem_of_In in Hb.
  unfold pixel_block in Hb. apply in_concat in Hb as (l & Hl & Hb).
  apply repeat_spec in Hl as ->. unfold pixel_line in Hb.
  apply in_flat_map in Hb as (c & _ & Hb). apply repeat_spec in Hb as ->.
  unfold byte_of. destruct (c =? 0); auto.
Qed.

(** ** The ascii text *)

Lemma symbol_binary_cell (c : Z) : binary_cell c -> symbol c = Some (sym_of c).
Proof. by intros [-> | ->]. Qed.

Lemma all_str_symbols (row : list Z) :
  Forall binary_cell row -> all_str (map symbol row) = Some (map sym_of row).
Proof.
  induction 1 as [|c row Hc _ IH]; simpl; [done|].
  by rewrite (symbol_binary_cell _ Hc), IH.
Qed.

Lemma all_str_symbols_none (row : list Z) :
  Exists (fun c => ~ binary_cell c) row -> all_str (map symbol row) = None.
Proof.
  induction 1 as [c row Hc|c row _ IH]; simpl.
  - by rewrite (proj2 (not_binary_cell _ Hc)).
  - rewrite IH. by destruct (symbol c).
Qed.

Lemma get_ascii_ok (self : Renderer) :
  binary (matrix self) ->
  get_ascii self
  = Ok (join_str (lit "\n") (map row_text (matrix self)) +:+ lit "\n").
Proof.
  intros H. unfold get_ascii.
  rewrite (comprehension_ok _ row_text); [done|].
  eapply Forall_impl; [exact H|]. intros row Hrow; simpl.
  unfold join. by rewrite (all_str_symbols _ Hrow).
Qed.

Lemma get_ascii_raise (self : Renderer) :
  ~ binary (matrix self) -> get_ascii self = Raise TypeError.
Proof.
  intros H. unfold get_ascii.
  rewrite (comprehension_raise _ TypeError); [done| |].
  - intros row e'. unfold join. destruct (all_str _); congruence.
  - eapply Exists_impl; [exact (not_binary _ H)|]. intros row Hrow; simpl.
    unfold join. by rewrite (all_str_symbols_none _ Hrow).
Qed.

(** ** Claims on the raster buffer and on the cell mappings *)

(** C4. For a grid of 0/1 cells whose fields agree with its matrix and a
    cell size of at least 1, [get_buffer] returns [width*cellsize *
    height*cellsize] bytes, each 0xFF or 0x00 (0xFF for a 0 cell, 0x00 for a
    1 cell); the rows are emitted last row first, a row's pixel line is
    emitted [cellsize] times, and in it each cell is repeated [cellsize]
    times. *)
Theorem get_buffer_raster (self : Renderer) (cellsize : Z) :
  1 <= cellsize -> binary (matrix self) -> well_formed self ->
  exists buf,
    get_buffer self cellsize = Ok buf /\
    len buf = width self * cellsize * (height self * cellsize) /\
    Forall (fun b => b = xff \/ b = x00) buf /\
    byte_of 0 = xff /\ byte_of 1 = x00 /\
    buf = concat (map (fun row =>
                         concat (repeat
                           (flat_map (fun cell =>
                              repeat (byte_of cell) (Z.to_nat cellsize)) row)
                           (Z.to_nat cellsize)))
                      (rev (matrix self))).
Proof.
  intros Hcs Hbin [Hw Hh].
  exists (concat (map (pixel_block cellsize) (rev (matrix self)))).
  split; [by apply get_buffer_ok|]. split; [|split; [|done]].
  - unfold len in *.
    rewrite (length_concat_uniform _
               (Z.to_nat cellsize * (Z.to_nat (height self) * Z.to_nat cellsize))).
    + rewrite length_map, length_rev, <- Hw.
      destruct (matrix self) as [|row0 rows]; [simpl; lia|].
      apply Forall_inv in Hh. rewrite !Nat2Z.inj_mul, !Z2Nat.id by lia. ring.
    + apply Forall_map, Forall_rev. eapply Forall_impl; [exact Hh|].
      intros row Hrow; simpl. rewrite length_pixel_block.
      simpl in Hrow. by replace (Z.to_nat (height self)) with (length row) by lia.
  - apply Forall_concat, Forall_map, Forall_forall.
    intros row _. apply pixel_block_bytes.
Qed.

(** The raster claim at a 2x2 grid with cell size 3. *)
Lemma get_buffer_raster_witness :
  exists buf, get_buffer (grid [[0; 1]; [1; 1]]) 3 = Ok buf /\ len buf = 36.
Proof.
  destruct (get_buffer_raster (grid [[0; 1]; [1; 1]]) 3) as (buf & H1 & H2 & _).
  - lia.
  - by_decide.
  - split; [reflexivity|]. repeat constructor.
  - exists buf. split; [exact H1|]. exact H2.
Defined.

(** C10. When every cell is 0 or 1, [pixel] and [symbol] return a value at
    every cell and [get_buffer] and [get_ascii] return; when some cell is
    not 0 or 1, there is a cell at which both fall through to [None], and
    both encoders raise [TypeError] on it. *)
Theorem pixel_symbol_total (self : Renderer) (cellsize : Z) :
  (binary (matrix self) ->
     (forall row c, row ∈ matrix self -> c ∈ row ->
                    is_Some (pixel c) /\ is_Some (symbol c)) /\
     (exists buf, get_buffer self cellsize = Ok buf) /\
     (exists text, get_ascii self = Ok text)) /\
  (~ binary (matrix self) ->
     (exists row c, row ∈ matrix self /\ c ∈ row /\
                    pixel c = None /\ symbol c = None) /\
     get_buffer self cellsize = Raise TypeError /\
     get_ascii self = Raise TypeError).
Proof.
  split; intros H.
  - split; [|split].
    + intros row c Hrow Hc.
      assert (binary_cell c) as Hb.
      { unfold binary in H. rewrite Forall_forall in H.
        specialize (H _ Hrow). rewrite Forall_forall in H. by apply H. }
      split; [by apply pixel_binary | by apply symbol_binary].
    + eexists. by apply get_buffer_ok.
    + eexists. by apply get_ascii_ok.
  - split; [|split].
    + apply not_binary, Exists_exists in H as (row & Hrow & H).
      apply Exists_exists in H as (c & Hc & H).
      exists row, c. destruct (not_binary_cell _ H). done.
    + by apply get_buffer_raise.
    + by apply get_ascii_raise.
Qed.

(** The cell-mapping claim at a grid of 0/1 cells and at a grid holding a 2. *)
Lemma pixel_symbol_total_witness :
  (exists buf, get_buffer (grid [[0; 1]]) 2 = Ok buf) /\
  get_ascii (grid [[0; 2]]) = Raise TypeError.
Proof.
  split.
  - apply (pixel_symbol_total (grid [[0; 1]]) 2). by_decide.
  - apply (pixel_symbol_total (grid [[0; 2]]) 2).
    by_decide.
Defined.

(** ** Texts as lines *)

Lemma str_app_nil_l (a : string) : "" +:+ a = a.
Proof. reflexivity. Qed.

Lemma str_app_cons (x : ascii) (a b : string) :
  String x a +:+ b = String x (a +:+ b).
Proof. reflexivity. Qed.

Ltac str_simpl := rewrite ?str_app_cons, ?str_app_nil_l.

Lemma str_app_assoc (a b c : string) : (a +:+ b) +:+ c = a +:+ (b +:+ c).
Proof. induction a as [|x a IH]; str_simpl; congruence. Qed.

Lemma str_app_nil_r (a : string) : a +:+ "" = a.
Proof. induction a as [|x a IH]; str_simpl; congruence. Qed.

Lemma join_str_empty (ls : list string) : join_str "" ls = concat_str ls.
Proof.
  unfold join_str. induction ls as [|l ls IH]; simpl; [done|].
  destruct ls as [|l' ls]; [by rewrite str_app_nil_r|].
  str_simpl. by rewrite <- IH.
Qed.

Lemma concat_str_cons (x : string) (xs : list string) :
  concat_str (x :: xs) = x +:+ concat_str xs.
Proof. reflexivity. Qed.

Lemma concat_str_app (xs ys : list string) :
  concat_str (xs ++ ys) = concat_str xs +:+ concat_str ys.
Proof.
  induction xs as [|x xs IH]; simpl; [done|].
  by rewrite IH, str_app_assoc.
Qed.

Lemma unlines_app (xs ys : list string) :
  unlines (xs ++ ys) = unlines xs +:+ unlines ys.
Proof.
  induction xs as [|x xs IH]; simpl; [done|].
  rewrite IH, str_app_assoc. done.
Qed.

Lemma concat_str_unlines (ls : list (list string)) :
  concat_str (map unlines ls) = unlines (concat ls).
Proof.
  induction ls as [|l ls IH]; simpl; [done|].
  by rewrite IH, unlines_app.
Qed.

Lemma text_lines_nonempty (s : string) : text_lines s <> [].
Proof.
  induction s as [|c s IH]; simpl; [done|].
  destruct (Ascii.eqb c LF); [done|]. by destruct (text_lines s).
Qed.

Lemma text_lines_line (l rest : string) :
  one_line l = true ->
  text_lines (l +:+ String LF rest) = l :: text_lines rest.
Proof.
  induction l as [|c l IH]; str_simpl; simpl; intros H.
  - done.
  - apply andb_true_iff in H as [Hc Hl].
    apply negb_true_iff in Hc. rewrite Hc, (IH Hl). done.
Qed.

Lemma text_lines_unlines (ls : list string) :
  Forall (fun l => one_line l = true) ls ->
  text_lines (unlines ls) = ls ++ [EmptyString].
Proof.
  induction 1 as [|l ls Hl _ IH]; simpl; [done|].
  by rewrite (text_lines_line _ _ Hl), IH.
Qed.

Lemma numeric_one_line (s : string) : numeric s = true -> one_line s = true.
Proof.
  induction s as [|c s IH]; simpl; [done|].
  intros H. apply andb_true_iff in H as [Hc Hs].
  rewrite (IH Hs), andb_true_r.
  destruct (Ascii.eqb_spec c LF) as [->|]; [|done]. by vm_compute in Hc.
Qed.

Lemma numeric_uint (d : uint) : numeric (NilEmpty.string_of_uint d) = true.
Proof. induction d; simpl; try done. Qed.

Lemma numeric_str (n : Z) : numeric (str n) = true.
Proof.
  unfold str. destruct (Z.to_int n) as [d|d]; simpl.
  - destruct d; try done; apply (numeric_uint (_ d)) || apply numeric_uint.
  - destruct d; try done; apply (numeric_uint (_ d)) || apply numeric_uint.
Qed.

(** ** The DXF document *)

Lemma coord_unlines (x y c : Z) :
  coord x y c
  = unlines [str (10 + c); str x; str (20 + c); str y; str (30 + c); str 0].
Proof.
  unfold coord, join_str. cbn [String.concat unlines lit].
  repeat rewrite str_app_cons. repeat rewrite str_app_nil_l. reflexivity.
Qed.

Lemma solid_unlines (x y w h : Z) :
  solid x y w h
  = unlines (solid_lines (mkSolid "barcode" (x, y) (x + w, y)
                                  (x, y - h) (x + w, y - h))).
Proof.
  unfold solid. rewrite join_str_empty. cbn [map concat_str fold_right].
  rewrite !coord_unlines, str_app_nil_r.
  change (lit "0\nSOLID\n8\nbarcode\n")
    with (unlines ["0"; "SOLID"; "8"; "barcode"]%string).
  rewrite <- !unlines_app. reflexivity.
Qed.

Lemma foreground_eq (val : Z) (inverse : bool) :
  negb (Bool.eqb (bool_ val) inverse) = foreground val inverse.
Proof. unfold foreground. by destruct (bool_ val), inverse. Qed.

Lemma row_unlines (self : Renderer) (cellsize : Z) (inverse : bool) (y : Z)
  (cells : list (Z * Z)) :
  concat_str
    (map (fun '(x, val) =>
            if negb (Bool.eqb (bool_ val) inverse)
            then solid (x * cellsize) ((height self - y) * cellsize)
                       cellsize cellsize
            else ""%string) cells)
  = unlines
      (flat_map (fun p => solid_lines (cell_solid self cellsize p))
         (flat_map (fun '(x, val) =>
                      if foreground val inverse then [(x, y)] else []) cells)).
Proof.
  induction cells as [|[x val] cells IH]; [done|].
  cbn [map concat_str fold_right flat_map]. fold (concat_str).
  rewrite flat_map_app, unlines_app. setoid_rewrite IH.
  rewrite foreground_eq. destruct (foreground val inverse).
  - cbn [flat_map]. rewrite app_nil_r. by rewrite solid_unlines.
  - done.
Qed.

Lemma rows_unlines (self : Renderer) (cellsize : Z) (inverse : bool)
  (rows : list (Z * list Z)) :
  concat_str
    (map (fun '(y, row) =>
            join_str ""
              (map (fun '(x, val) =>
                      if negb (Bool.eqb (bool_ val) inverse)
                      then solid (x * cellsize) ((height self - y) * cellsize)
                                 cellsize cellsize
                      else ""%string)
                   (enumerate row))) rows)
  = unlines
      (flat_map (fun p => solid_lines (cell_solid self cellsize p))
         (flat_map (fun '(y, row) =>
                      flat_map (fun '(x, val) =>
                                  if foreground val inverse then [(x, y)] else [])
                               (enumerate row)) rows)).
Proof.
  induction rows as [|[y row] rows IH]; [done|].
  cbn [map concat_str fold_right flat_map]. fold (concat_str).
  rewrite flat_map_app, unlines_app. setoid_rewrite IH.
  by rewrite join_str_empty, row_unlines.
Qed.

(** The document is the header, the entities of the drawn cells and the
    footer, each line ended by a line feed. *)
Lemma get_dxf_unlines (self : Renderer) (cellsize : Z) (inverse : bool)
  (units : string) :
  get_dxf self cellsize inverse units
  = unlines (header_lines (if decide (units = "mm"%string) then 4 else 0)
             ++ flat_map (fun p => solid_lines (cell_solid self cellsize p))
                         (foreground_cells self inverse)
             ++ footer_lines).
Proof.
  unfold get_dxf. rewrite join_str_empty. cbn [app].
  rewrite !concat_str_cons, concat_str_app, rows_unlines.
  fold (foreground_cells self inverse).
  rewrite !unlines_app, <- !str_app_assoc. do 2 f_equal.
  destruct (String.eqb_spec units "mm") as [->|Hne].
  - by rewrite decide_True.
  - by rewrite decide_False.
Qed.

Lemma numeric_not_solid (s : string) : numeric s = true -> s <> "SOLID"%string.
Proof. intros H ->. by vm_compute in H. Qed.

Lemma str_one_line (n : Z) : one_line (str n) = true.
Proof. apply numeric_one_line, numeric_str. Qed.

Lemma str_not_solid (n : Z) : str n <> "SOLID"%string.
Proof. apply numeric_not_solid, numeric_str. Qed.

Lemma header_one_line (code : Z) :
  Forall (fun l => one_line l = true) (header_lines code).
Proof. unfold header_lines. repeat constructor. apply str_one_line. Qed.

Lemma solid_one_line (self : Renderer) (cellsize : Z) (p : Z * Z) :
  Forall (fun l => one_line l = true) (solid_lines (cell_solid self cellsize p)).
Proof.
  destruct p as [x y]. unfold solid_lines, cell_solid; simpl.
  repeat constructor; apply str_one_line.
Qed.

Lemma get_dxf_lines (self : Renderer) (cellsize : Z) (inverse : bool)
  (units : string) :
  text_lines (get_dxf self cellsize inverse units)
  = header_lines (if decide (units = "mm"%string) then 4 else 0)
    ++ flat_map (fun p => solid_lines (cell_solid self cellsize p))
                (foreground_cells self inverse)
    ++ footer_lines ++ [""%string].
Proof.
  rewrite get_dxf_unlines, text_lines_unlines.
  - by rewrite <- !app_assoc.
  - apply Forall_app. split; [apply header_one_line|].
    apply Forall_app. split; [|by repeat constructor].
    apply Forall_forall. intros l Hl. apply list_elem_of_In in Hl.
    apply in_flat_map in Hl as (p & _ & Hl).
    pose proof (solid_one_line self cellsize p) as H.
    rewrite Forall_forall in H. apply H. by apply list_elem_of_In.
Qed.

Lemma filter_none {A} (P : A -> Prop) `{forall x, Decision (P x)} (l : list A) :
  Forall (fun x => ~ P x) l -> filter P l = [].
Proof.
  induction 1 as [|x l Hx _ IH]; [done|].
  by rewrite filter_cons_False.
Qed.

Lemma header_no_solid (code : Z) :
  filter (fun l => l = "SOLID"%string) (header_lines code) = [].
Proof.
  apply filter_none. unfold header_lines.
  repeat constructor; try discriminate. apply str_not_solid.
Qed.

Lemma solid_one_solid (self : Renderer) (cellsize : Z) (p : Z * Z) :
  length (filter (fun l => l = "SOLID"%string)
            (solid_lines (cell_solid self cellsize p))) = 1%nat.
Proof.
  destruct p as [x y]. unfold solid_lines, cell_solid.
  cbn [layer corner1 corner2 corner3 corner4 fst snd].
  rewrite filter_cons_False by discriminate.
  rewrite filter_cons_True by reflexivity.
  rewrite filter_none; [done|].
  repeat constructor; try discriminate; apply str_not_solid.
Qed.

Lemma count_solids (self : Renderer) (cellsize : Z) (ps : list (Z * Z)) :
  length (filter (fun l => l = "SOLID"%string)
            (flat_map (fun p => solid_lines (cell_solid self cellsize p)) ps))
  = length ps.
Proof.
  induction ps as [|p ps IH]; [done|].
  cbn [flat_map]. rewrite filter_app, length_app, IH, solid_one_solid. done.
Qed.

Lemma get_dxf_count (self : Renderer) (cellsize : Z) (inverse : bool)
  (units : string) :
  dxf_entity_count (get_dxf self cellsize inverse units)
  = length (foreground_cells self inverse).
Proof.
  unfold dxf_entity_count. rewrite get_dxf_lines.
  rewrite !filter_app, !length_app, header_no_solid, count_solids.
  simpl. lia.
Qed.

(** ** Cells and their positions *)

Lemma lookup_combine_seq {A} (l : list A) (s k : nat) :
  combine (map Z.of_nat (seq s (length l))) l !! k
  = (fun a => (Z.of_nat (s + k), a)) <$> l !! k.
Proof.
  revert s k. induction l as [|a l IH]; intros s k; simpl; [done|].
  destruct k as [|k]; simpl.
  - by rewrite Nat.add_0_r.
  - rewrite IH. by rewrite Nat.add_succ_r.
Qed.

Lemma lookup_enumerate {A} (l : list A) (k : nat) :
  enumerate l !! k = (fun a => (Z.of_nat k, a)) <$> l !! k.
Proof.
  unfold enumerate, range, len. rewrite Nat2Z.id. apply lookup_combine_seq.
Qed.

Lemma elem_of_enumerate {A} (l : list A) (i : Z) (a : A) :
  (i, a) ∈ enumerate l <-> 0 <= i /\ l !! Z.to_nat i = Some a.
Proof.
  rewrite list_elem_of_lookup. split.
  - intros (k & Hk). rewrite lookup_enumerate in Hk.
    destruct (l !! k) as [a'|] eqn:E; simplify_eq/=.
    split; [lia|]. by rewrite Nat2Z.id.
  - intros [Hi Ha]. exists (Z.to_nat i).
    rewrite lookup_enumerate, Ha. simpl. by rewrite Z2Nat.id.
Qed.

Lemma length_enumerate {A} (l : list A) : length (enumerate l) = length l.
Proof.
  unfold enumerate. rewrite length_combine, length_range. unfold len. lia.
Qed.

Lemma NoDup_range (n : Z) : NoDup (range n).
Proof.
  unfold range. apply NoDup_fmap_2; [|apply NoDup_seq].
  intros a b. apply Nat2Z.inj.
Qed.

Lemma enumerate_fst {A} (l : list A) : (enumerate l).*1 = range (len l).
Proof.
  unfold enumerate. apply (fst_zip (range (len l)) l).
  rewrite length_range. unfold len. lia.
Qed.

Lemma NoDup_enumerate_fst {A} (l : list A) : NoDup (enumerate l).*1.
Proof. rewrite enumerate_fst. apply NoDup_range. Qed.

Lemma flat_map_bind {A B} (f : A -> list B) (l : list A) :
  flat_map f l = l ≫= f.
Proof. induction l as [|x l IH]; simpl; [done|]. by rewrite IH. Qed.

Lemma elem_of_foreground_cells (self : Renderer) (inverse : bool) (p : Z * Z) :
  p ∈ foreground_cells self inverse
  <-> exists val, cell_at (matrix self) p = Some val
                  /\ foreground val inverse = true.
Proof.
  destruct p as [x y]. unfold foreground_cells, cell_at.
  rewrite list_elem_of_In, in_flat_map. split.
  - intros ([y' row] & Hrow & Hp).
    apply in_flat_map in Hp as ([x' val] & Hval & Hp).
    apply list_elem_of_In, elem_of_enumerate in Hrow as [Hy Hrow].
    apply list_elem_of_In, elem_of_enumerate in Hval as [Hx Hval].
    destruct (foreground val inverse) eqn:Hfg; [|done].
    destruct Hp as [[= <- <-]|[]].
    exists val. split; [|done].
    replace ((0 <=? x') && (0 <=? y')) with true by (symmetry; apply andb_true_iff; lia).
    by rewrite Hrow.
  - intros (val & Hc & Hfg).
    destruct ((0 <=? x) && (0 <=? y)) eqn:Hxy; [|done].
    apply andb_true_iff in Hxy as [Hx Hy].
    destruct (matrix self !! Z.to_nat y) as [row|] eqn:Hrow; [|done].
    exists (y, row). split.
    + apply list_elem_of_In, elem_of_enumerate. split; [lia|done].
    + apply in_flat_map. exists (x, val). split.
      * apply list_elem_of_In, elem_of_enumerate. split; [lia|done].
      * rewrite Hfg. by left.
Qed.

Lemma NoDup_foreground_cells (self : Renderer) (inverse : bool) :
  NoDup (foreground_cells self inverse).
Proof.
  unfold foreground_cells. rewrite flat_map_bind.
  apply NoDup_bind.
  - intros [y1 row1] [y2 row2] [x y] H1 H2 Hin1 Hin2.
    apply list_elem_of_In, in_flat_map in Hin1 as ([x1 v1] & _ & Hin1).
    apply list_elem_of_In, in_flat_map in Hin2 as ([x2 v2] & _ & Hin2).
    destruct (foreground v1 inverse); [|done].
    destruct (foreground v2 inverse); [|done].
    destruct Hin1 as [[= -> ->]|[]]. destruct Hin2 as [[= _ ->]|[]].
    apply elem_of_enumerate in H1 as [_ H1].
    apply elem_of_enumerate in H2 as [_ H2]. congruence.
  - intros [y row] _. rewrite flat_map_bind.
    apply NoDup_bind.
    + intros [x1 v1] [x2 v2] q H1 H2 Hq1 Hq2.
      destruct (foreground v1 inverse); [|by apply elem_of_nil in Hq1].
      destruct (foreground v2 inverse); [|by apply elem_of_nil in Hq2].
      apply list_elem_of_singleton in Hq1, Hq2. subst q. injection Hq2 as ->.
      apply elem_of_enumerate in H1 as [_ H1].
      apply elem_of_enumerate in H2 as [_ H2]. congruence.
    + intros [x v] _. destruct (foreground v inverse);
        [apply NoDup_singleton | apply NoDup_nil_2].
    + eapply NoDup_fmap_1. apply NoDup_enumerate_fst.
  - eapply NoDup_fmap_1. apply NoDup_enumerate_fst.
Qed.

Lemma foreground_complement (val : Z) :
  foreground val true = negb (foreground val false).
Proof. unfold foreground. by destruct (bool_ val). Qed.

(** ** Claims on the DXF document *)

(** C6. For every grid, cell size, [inverse] and [units], the document of
    [get_dxf] is its header, the SOLID entities of the cells whose truth
    value XOR [inverse] is true, one per such cell, and its footer, so the
    number of SOLID entities is the number of those cells; and the cells
    drawn with [inverse = True] are exactly the cells of the grid that are
    not drawn with [inverse = False]. *)
Theorem get_dxf_entity_count (self : Renderer) (cellsize : Z) (inverse : bool)
  (units : string) :
  text_lines (get_dxf self cellsize inverse units)
  = header_lines (if decide (units = "mm"%string) then 4 else 0)
    ++ flat_map (fun p => solid_lines (cell_solid self cellsize p))
                (foreground_cells self inverse)
    ++ footer_lines ++ [""%string] /\
  dxf_entity_count (get_dxf self cellsize inverse units)
  = length (foreground_cells self inverse) /\
  NoDup (foreground_cells self inverse) /\
  (forall p, p ∈ foreground_cells self inverse
             <-> exists val, cell_at (matrix self) p = Some val
                             /\ xorb (bool_ val) inverse = true) /\
  (forall p, p ∈ foreground_cells self true
             <-> is_Some (cell_at (matrix self) p)
                 /\ p ∉ foreground_cells self false).
Proof.
  split; [apply get_dxf_lines|].
  split; [apply get_dxf_count|].
  split; [apply NoDup_foreground_cells|].
  split; [apply elem_of_foreground_cells|].
  intros p. rewrite !elem_of_foreground_cells. split.
  - intros (val & Hc & Hfg). split; [by exists val|].
    intros (val' & Hc' & Hfg'). rewrite Hc in Hc'. injection Hc' as <-.
    rewrite foreground_complement, Hfg' in Hfg. done.
  - intros [[val Hc] Hn]. exists val. split; [done|].
    rewrite foreground_complement.
    destruct (foreground val false) eqn:E; [|done].
    destruct Hn. by exists val.
Qed.

(** C7. The SOLID entity of a drawn cell [(x, y)] is on layer "barcode" with
    corners [(x*c, (height-y)*c)], [(x*c+c, (height-y)*c)],
    [(x*c, (height-y)*c - c)] and [(x*c+c, (height-y)*c - c)] for cell size
    [c], the unit code of the header is 4 when [units] is "mm" and 0
    otherwise, and the 1x1 grid holding a 1, with cell size 10, no inversion
    and units "mm", gives unit code 4 and the single entity of corners
    (0,10), (10,10), (0,0), (10,0). *)
Theorem get_dxf_solid_corners (self : Renderer) (cellsize : Z) (inverse : bool)
  (units : string) :
  text_lines (get_dxf self cellsize inverse units)
  = header_lines (if decide (units = "mm"%string) then 4 else 0)
    ++ flat_map
         (fun '(x, y) =>
            solid_lines
              (mkSolid "barcode"
                 (x * cellsize, (height self - y) * cellsize)
                 (x * cellsize + cellsize, (height self - y) * cellsize)
                 (x * cellsize, (height self - y) * cellsize - cellsize)
                 (x * cellsize + cellsize,
                  (height self - y) * cellsize - cellsize)))
         (foreground_cells self inverse)
    ++ footer_lines ++ [""%string] /\
  text_lines (get_dxf (grid [[1]]) 10 false "mm")
  = header_lines 4
    ++ solid_lines (mkSolid "barcode" (0, 10) (10, 10) (0, 0) (10, 0))
    ++ footer_lines ++ [""%string] /\
  dxf_entity_count (get_dxf (grid [[1]]) 10 false "mm") = 1%nat.
Proof.
  split; [|split].
  - rewrite get_dxf_lines. do 2 f_equal.
    apply flat_map_ext. by intros [x y].
  - by vm_compute.
  - by vm_compute.
Qed.

(** ** Claim on non-positive cell sizes *)

Lemma pixel_block_nonpos (cellsize : Z) (row : list Z) :
  cellsize <= 0 -> pixel_block cellsize row = [].
Proof.
  intros H. unfold pixel_block. by replace (Z.to_nat cellsize) with O by lia.
Qed.

Lemma concat_nils {A} (ls : list (list A)) :
  Forall (fun l => l = []) ls -> concat ls = [].
Proof. induction 1 as [|l ls -> _ IH]; simpl; [done|]. exact IH. Qed.

(** C9, as the code has it.  The claim fails: for a cell size of 0 the
    raster encoder returns the empty buffer and the vector encoder returns a
    document; no error is raised. *)
Lemma nonpositive_cellsize_accepted :
  get_buffer (grid [[0; 1]]) 0 = Ok [] /\
  get_buffer (grid [[0; 1]]) (-2) = Ok [] /\
  dxf_entity_count (get_dxf (grid [[0; 1]]) 0 false "mm") = 1%nat /\
  ~ (forall (self : Renderer) (cellsize : Z),
       cellsize <= 0 -> exists e, get_buffer self cellsize = Raise e).
Proof.
  split; [by vm_compute|]. split; [by vm_compute|]. split; [by vm_compute|].
  intros H. destruct (H (grid [[0; 1]]) 0) as [e He]; [lia|].
  vm_compute in He. discriminate.
Qed.

(** C9, amended.  For a cell size of 0 or less neither encoder checks the
    cell size: [get_buffer] returns the empty buffer for a grid of 0/1 cells
    (and raises [TypeError], from the cell mapping, when a cell is not 0 or
    1), and [get_dxf] returns a document with one SOLID entity per drawn
    cell. *)
Theorem nonpositive_cellsize_results (self : Renderer) (cellsize : Z)
  (inverse : bool) (units : string) :
  cellsize <= 0 ->
  (binary (matrix self) -> get_buffer self cellsize = Ok []) /\
  (~ binary (matrix self) -> get_buffer self cellsize = Raise TypeError) /\
  dxf_entity_count (get_dxf self cellsize inverse units)
  = length (foreground_cells self inverse).
Proof.
  intros Hcs. split; [|split].
  - intros Hbin. rewrite (get_buffer_ok _ _ Hbin). f_equal.
    apply concat_nils, Forall_map, Forall_forall.
    intros row _. by apply pixel_block_nonpos.
  - apply get_buffer_raise.
  - apply get_dxf_count.
Qed.

(** The amended claim at a 1x2 grid with cell size -1. *)
Lemma nonpositive_cellsize_results_witness :
  get_buffer (grid [[0; 1]]) (-1) = Ok [] /\
  dxf_entity_count (get_dxf (grid [[0; 1]]) (-1) true "in") = 1%nat.
Proof.
  destruct (nonpositive_cellsize_results (grid [[0; 1]]) (-1) true "in")
    as (H1 & _ & H2); [lia|].
  split; [apply H1; by_decide | exact H2].
Defined.

(** ** The ascii text read back *)

Lemma join_lines (rows : list string) :
  rows <> [] -> join_str (lit "\n") rows +:+ lit "\n" = unlines rows.
Proof.
  unfold join_str. change (lit "\n") with (String LF "").
  induction rows as [|r rows IH]; [done|]. intros _.
  destruct rows as [|r' rows]; [done|].
  cbn [String.concat unlines] in *. rewrite <- IH by done.
  rewrite !str_app_assoc. by str_simpl.
Qed.

Lemma sym_of_one_line (c : Z) : one_line (sym_of c) = true.
Proof. unfold sym_of. by destruct (c =? 0). Qed.

Lemma one_line_app (a b : string) :
  one_line a = true -> one_line b = true -> one_line (a +:+ b) = true.
Proof.
  intros Ha Hb. induction a as [|c a IH]; str_simpl; [done|].
  simpl in *. apply andb_true_iff in Ha as [-> Ha]. by apply IH.
Qed.

Lemma row_text_one_line (row : list Z) : one_line (row_text row) = true.
Proof.
  unfold row_text. rewrite join_str_empty.
  induction row as [|c row IH]; [done|].
  cbn [map concat_str fold_right]. apply one_line_app; [apply sym_of_one_line|done].
Qed.

Lemma length_str_app (a b : string) :
  String.length (a +:+ b) = (String.length a + String.length b)%nat.
Proof. induction a as [|c a IH]; str_simpl; simpl; [done|]. by rewrite IH. Qed.

Lemma length_row_text (row : list Z) :
  String.length (row_text row) = (2 * length row)%nat.
Proof.
  unfold row_text. rewrite join_str_empty.
  induction row as [|c row IH]; [done|].
  cbn [map concat_str fold_right length]. rewrite length_str_app.
  fold (concat_str (map sym_of row)). rewrite IH.
  unfold sym_of. destruct (c =? 0); simpl; lia.
Qed.

Lemma parse_row_text (row : list Z) :
  Forall binary_cell row -> parse_row (row_text row) = Some row.
Proof.
  unfold row_text. rewrite join_str_empty.
  induction 1 as [|c row Hc _ IH]; [done|].
  cbn [map concat_str fold_right]. fold (concat_str (map sym_of row)).
  destruct Hc as [-> | ->].
  - change (sym_of 0) with "  "%string. str_simpl.
    change (parse_row (String " " (String " " ?s)))
      with (cons 0 <$> parse_row s). by rewrite IH.
  - change (sym_of 1) with "XX"%string. str_simpl.
    change (parse_row (String "X" (String "X" ?s)))
      with (cons 1 <$> parse_row s). by rewrite IH.
Qed.

Lemma parse_rows_text (m : list (list Z)) :
  binary m -> parse_rows (map row_text m) = Some m.
Proof.
  induction 1 as [|row m Hrow _ IH]; simpl; [done|].
  by rewrite (parse_row_text _ Hrow), IH.
Qed.

(** C5. For a grid of 0/1 cells, [get_ascii] writes every cell as two
    characters (two spaces for 0, "XX" for 1), every row followed by a line
    feed, rows top down; reading the text back pair by pair gives the grid
    again.  For the 10x10 grid of zeros with two regions the text is 14 lines
    of 28 characters, "XX" at the cells stamped by [add_handles] and two
    spaces elsewhere. *)
Theorem get_ascii_round_trip :
  (forall self : Renderer,
     binary (matrix self) -> matrix self <> [] ->
     exists text,
       get_ascii self = Ok text /\
       text = unlines
                (map (fun row =>
                        concat_str
                          (map (fun cell =>
                                  if cell =? 0 then "  "%string
                                  else "XX"%string) row))
                     (matrix self)) /\
       text_lines text = map row_text (matrix self) ++ [""%string] /\
       Forall (fun row => String.length (row_text row) = (2 * length row)%nat)
              (matrix self) /\
       parse_ascii text = Some (matrix self)) /\
  (exists r text lines,
     init (zeros 10 10) 2 = Ok r /\
     get_ascii r = Ok text /\
     text_lines text = lines ++ [""%string] /\
     length lines = 14%nat /\
     Forall (fun l => String.length l = 28%nat) lines /\
     lines = map (fun y =>
                    concat_str
                      (map (fun x =>
                              if bool_decide ((x, y) ∈ handle_cells r)
                              then "XX"%string else "  "%string)
                           (range 14)))
                 (range 14)).
Proof.
  split.
  - intros self Hbin Hne.
    exists (unlines (map row_text (matrix self))).
    assert (text_lines (unlines (map row_text (matrix self)))
            = map row_text (matrix self) ++ [""%string]) as Hlines.
    { apply text_lines_unlines, Forall_map, Forall_forall.
      intros row _. apply row_text_one_line. }
    split; [|split; [|split; [|split]]].
    + rewrite (get_ascii_ok _ Hbin). f_equal. apply join_lines.
      by destruct (matrix self).
    + f_equal. apply map_ext. intros row. unfold row_text.
      by rewrite join_str_empty.
    + exact Hlines.
    + apply Forall_forall. intros row _. apply length_row_text.
    + unfold parse_ascii. rewrite Hlines, removelast_last.
      by apply parse_rows_text.
  - eexists _, _, _. split; [vm_compute; reflexivity|].
    split; [vm_compute; reflexivity|].
    split; [|split; [|split; [|reflexivity]]].
    + vm_compute. reflexivity.
    + vm_compute. reflexivity.
    + by_decide.
Qed.

(** The round trip at a 2x2 grid. *)
Lemma get_ascii_round_trip_witness :
  exists text, get_ascii (grid [[0; 1]; [1; 1]]) = Ok text /\
               parse_ascii text = Some [[0; 1]; [1; 1]].
Proof.
  destruct (proj1 get_ascii_round_trip (grid [[0; 1]; [1; 1]]))
    as (text & H1 & _ & _ & _ & H2).
  - by_decide.
  - discriminate.
  - exists text. split; [exact H1 | exact H2].
Defined.

(** ** Writing cells *)

Lemma index_lt (n : nat) (i : Z) (k : nat) : index n i = Ok k -> (k < n)%nat.
Proof.
  unfold index. intros H.
  destruct ((0 <=? i) && (i <? Z.of_nat n)) eqn:E1.
  - injection H as <-. apply andb_true_iff in E1. lia.
  - destruct ((- Z.of_nat n <=? i) && (i <? 0)) eqn:E2; [|done].
    injection H as <-. apply andb_true_iff in E2. lia.
Qed.

Lemma index_nonneg (n : nat) (i : Z) :
  0 <= i < Z.of_nat n -> index n i = Ok (Z.to_nat i).
Proof.
  intros H. unfold index.
  by replace ((0 <=? i) && (i <? Z.of_nat n)) with true
    by (symmetry; apply andb_true_iff; lia).
Qed.

Lemma put_cell_matrix_inv (x y c : Z) (m m' : list (list Z)) :
  put_cell_matrix (x, y) c m = Ok m' <->
  exists ky kx row,
    index (length m) y = Ok ky /\ m !! ky = Some row /\
    index (length row) x = Ok kx /\ m' = <[ky := <[kx := c]> row]> m.
Proof.
  unfold put_cell_matrix, getitem, setitem. split.
  - intros H. destruct (index (length m) y) as [ky|] eqn:Hy; [|done].
    simpl in H. destruct (m !! ky) as [row|] eqn:Hrow; [|done].
    simpl in H. destruct (index (length row) x) as [kx|] eqn:Hx; [|done].
    simpl in H. injection H as <-. by exists ky, kx, row.
  - intros (ky & kx & row & Hy & Hrow & Hx & ->).
    rewrite Hy. simpl. rewrite Hrow. simpl. rewrite Hx. simpl. done.
Qed.

Lemma read_inv (x y v : Z) (m : list (list Z)) :
  read m (x, y) = Ok v <->
  exists ky kx row,
    index (length m) y = Ok ky /\ m !! ky = Some row /\
    index (length row) x = Ok kx /\ row !! kx = Some v.
Proof.
  unfold read, getitem. split.
  - intros H. destruct (index (length m) y) as [ky|] eqn:Hy; [|done].
    simpl in H. destruct (m !! ky) as [row|] eqn:Hrow; [|done].
    simpl in H. destruct (index (length row) x) as [kx|] eqn:Hx; [|done].
    simpl in H. destruct (row !! kx) as [v'|] eqn:Hv; [|done].
    injection H as <-. by exists ky, kx, row.
  - intros (ky & kx & row & Hy & Hrow & Hx & Hv).
    rewrite Hy. simpl. rewrite Hrow. simpl. rewrite Hx. simpl. by rewrite Hv.
Qed.

(** A write is read back. *)
Lemma put_cell_read (p : Z * Z) (c : Z) (m m' : list (list Z)) :
  put_cell_matrix p c m = Ok m' -> read m' p = Ok c.
Proof.
  destruct p as [x y]. intros H.
  apply put_cell_matrix_inv in H as (ky & kx & row & Hy & Hrow & Hx & ->).
  apply read_inv. exists ky, kx, (<[kx := c]> row).
  pose proof (index_lt _ _ _ Hy). pose proof (index_lt _ _ _ Hx).
  rewrite !length_insert. split; [done|]. split.
  - by apply list_lookup_insert_eq.
  - split; [done|]. by apply list_lookup_insert_eq.
Qed.

(** A write of [c] keeps the cells that already hold [c]. *)
Lemma put_cell_keep (p q : Z * Z) (c : Z) (m m' : list (list Z)) :
  put_cell_matrix p c m = Ok m' -> read m q = Ok c -> read m' q = Ok c.
Proof.
  destruct p as [x y], q as [x' y']. intros H Hq.
  apply put_cell_matrix_inv in H as (ky & kx & row & Hy & Hrow & Hx & ->).
  apply read_inv in Hq as (ky' & kx' & row' & Hy' & Hrow' & Hx' & Hv').
  apply read_inv. rewrite length_insert.
  pose proof (index_lt _ _ _ Hy). pose proof (index_lt _ _ _ Hx).
  destruct (decide (ky = ky')) as [<-|Hne].
  - assert (row' = row) as -> by congruence.
    exists ky, kx', (<[kx := c]> row). rewrite length_insert.
    split; [done|]. split; [by apply list_lookup_insert_eq|].
    split; [done|].
    destruct (decide (kx = kx')) as [<-|Hne'].
    + by apply list_lookup_insert_eq.
    + by rewrite list_lookup_insert_ne.
  - exists ky', kx', row'. split; [done|].
    split; [by rewrite list_lookup_insert_ne|]. done.
Qed.

(** A write of the value a cell holds changes nothing. *)
Lemma put_cell_same (p : Z * Z) (c : Z) (m : list (list Z)) :
  read m p = Ok c -> put_cell_matrix p c m = Ok m.
Proof.
  destruct p as [x y]. intros H.
  apply read_inv in H as (ky & kx & row & Hy & Hrow & Hx & Hv).
  apply put_cell_matrix_inv. exists ky, kx, row.
  repeat split; try done.
  rewrite (list_insert_id row kx c Hv). by rewrite list_insert_id.
Qed.

Lemma stamp_matrix_keep (ps : list (Z * Z)) (q : Z * Z) (m m' : list (list Z)) :
  stamp_matrix ps m = Ok m' -> read m q = Ok 1 -> read m' q = Ok 1.
Proof.
  unfold stamp_matrix. revert m. induction ps as [|p ps IH]; intros m H Hq.
  - by injection H as <-.
  - simpl in H. destruct (put_cell_matrix p 1 m) as [m1|] eqn:E; [|done].
    simpl in H. apply (IH _ H). by apply (put_cell_keep _ _ _ _ _ E).
Qed.

Lemma stamp_matrix_read (ps : list (Z * Z)) (m m' : list (list Z)) :
  stamp_matrix ps m = Ok m' -> Forall (fun p => read m' p = Ok 1) ps.
Proof.
  unfold stamp_matrix. revert m. induction ps as [|p ps IH]; intros m H.
  - constructor.
  - simpl in H. destruct (put_cell_matrix p 1 m) as [m1|] eqn:E; [|done].
    simpl in H. constructor; [|by apply (IH _ H)].
    apply (stamp_matrix_keep ps _ m1); [done|]. by apply put_cell_read in E.
Qed.

Lemma stamp_matrix_same (ps : list (Z * Z)) (m : list (list Z)) :
  Forall (fun p => read m p = Ok 1) ps -> stamp_matrix ps m = Ok m.
Proof.
  unfold stamp_matrix. induction 1 as [|p ps Hp _ IH]; simpl; [done|].
  by rewrite (put_cell_same _ _ _ Hp).
Qed.

Lemma stamp_matrix_twice (ps : list (Z * Z)) (m m' : list (list Z)) :
  stamp_matrix ps m = Ok m' -> stamp_matrix ps m' = Ok m'.
Proof. intros H. by apply stamp_matrix_same, (stamp_matrix_read _ m). Qed.

(** ** [add_handles] as a sequence of writes *)

Lemma for_map {A B S} (h : A -> B) (xs : list A) (body : B -> S -> result S)
  (s : S) :
  for_ (map h xs) body s = for_ xs (fun x => body (h x)) s.
Proof.
  revert s. induction xs as [|x xs IH]; intros s; simpl; [done|].
  destruct (body (h x) s); simpl; [apply IH|done].
Qed.

Lemma bind_ext {A B} (c : result A) (f g : A -> result B) :
  (forall a, f a = g a) -> bind c f = bind c g.
Proof. intros H. destruct c; simpl; [apply H|done]. Qed.

Lemma set_matrix_id (self : Renderer) : set_matrix self (matrix self) = self.
Proof. by destruct self. Qed.

Lemma stamp_eq (ps : list (Z * Z)) (self : Renderer) :
  stamp ps self
  = let! m := stamp_matrix ps (matrix self) in Ok (set_matrix self m).
Proof.
  unfold stamp, stamp_matrix. revert self.
  induction ps as [|p ps IH]; intros self; simpl.
  - by rewrite set_matrix_id.
  - unfold put_cell at 1.
    destruct (put_cell_matrix p 1 (matrix self)) as [m1|]; simpl; [|done].
    by rewrite IH.
Qed.

Lemma stamp_app (ps qs : list (Z * Z)) (self : Renderer) :
  stamp (ps ++ qs) self = let! s := stamp ps self in stamp qs s.
Proof. apply for_app. Qed.

Lemma handle_cells_regions (self : Renderer) :
  handle_cells self
  = flat_map (fun x_index =>
                flat_map (region_handle_cells self x_index)
                         (range (regions self)))
             (range (regions self)).
Proof. reflexivity. Qed.

Lemma for_flat_map_stamp {A} (self : Renderer) (h : A -> list (Z * Z))
  (body : A -> Renderer -> result Renderer) (xs : list A) (m : list (list Z)) :
  (forall x m, body x (set_matrix self m) = stamp (h x) (set_matrix self m)) ->
  for_ xs body (set_matrix self m) = stamp (flat_map h xs) (set_matrix self m).
Proof.
  intros Hbody. revert m. induction xs as [|x xs IH]; intros m; [done|].
  cbn [for_ flat_map]. rewrite stamp_app, Hbody, stamp_eq.
  destruct (stamp_matrix (h x) (matrix (set_matrix self m))) as [m1|]; [|done].
  apply (IH m1).
Qed.

Lemma region_handles_stamp (self : Renderer) (x_index y_index : Z)
  (m : list (list Z)) :
  (let self := set_matrix self m in
   let x_origin := x_index * (region_size self + 2) + quiet_zone self in
   let y_origin := y_index * (region_size self + 2) + quiet_zone self in
   let x_max := x_origin + region_size self + 1 in
   let y_max := y_origin + region_size self + 1 in
   let! self := for_ (range2 x_origin x_max)
                  (fun posx self => put_cell self (posx, y_max) 1) self in
   let! self := for_ (range2 y_origin y_max)
                  (fun posy self => put_cell self (x_origin, posy) 1) self in
   let! self := for_ (range3 x_origin x_max 2)
                  (fun i self => put_cell self (i, y_origin) 1) self in
   for_ (range3 y_max y_origin (-2))
     (fun i self => put_cell self (x_max, i) 1) self)
  = stamp (region_handle_cells self x_index y_index) (set_matrix self m).
Proof.
  unfold region_handle_cells. cbv zeta.
  cbn [region_size quiet_zone set_matrix].
  rewrite stamp_app. unfold stamp at 1. rewrite for_map.
  apply bind_ext. intros s1.
  rewrite stamp_app. unfold stamp at 1. rewrite for_map.
  apply bind_ext. intros s2.
  rewrite stamp_app. unfold stamp at 1. rewrite for_map.
  apply bind_ext. intros s3. unfold stamp. by rewrite for_map.
Qed.

Lemma add_handles_stamp_at (self : Renderer) (m : list (list Z)) :
  add_handles (set_matrix self m)
  = stamp (handle_cells self) (set_matrix self m).
Proof.
  rewrite handle_cells_regions. unfold add_handles.
  change (regions (set_matrix self m)) with (regions self).
  apply (for_flat_map_stamp self
           (fun x_index => flat_map (region_handle_cells self x_index)
                                    (range (regions self)))).
  intros x_index m1.
  change (regions (set_matrix self m1)) with (regions self).
  apply (for_flat_map_stamp self (region_handle_cells self x_index)).
  intros y_index m2. apply region_handles_stamp.
Qed.

Lemma add_handles_stamp (self : Renderer) :
  add_handles self = stamp (handle_cells self) self.
Proof.
  rewrite <- (set_matrix_id self) at 1 3. apply add_handles_stamp_at.
Qed.

Lemma handle_cells_set_matrix (self : Renderer) (m : list (list Z)) :
  handle_cells (set_matrix self m) = handle_cells self.
Proof. reflexivity. Qed.

(** C8. When [add_handles] has run on a renderer, running it again returns
    the same renderer: every cell it writes already holds 1. *)
Theorem add_handles_idempotent (self stamped : Renderer) :
  add_handles self = Ok stamped -> add_handles stamped = Ok stamped.
Proof.
  rewrite !add_handles_stamp, stamp_eq. intros H.
  destruct (stamp_matrix (handle_cells self) (matrix self)) as [m|] eqn:E;
    [|done].
  injection H as <-. rewrite handle_cells_set_matrix, stamp_eq.
  cbn [matrix set_matrix]. rewrite (stamp_matrix_twice _ _ _ E). done.
Qed.

(** Idempotence at the bordered 2x2 grid of zeros with one region. *)
Lemma add_handles_idempotent_witness :
  exists bordered stamped,
    add_border (mkRenderer 2 2 1 2 0 (zeros 2 2)) 0 = Ok bordered /\
    add_handles bordered = Ok stamped /\
    add_handles stamped = Ok stamped.
Proof.
  eexists _, _. split; [vm_compute; reflexivity|].
  split; [vm_compute; reflexivity|].
  apply (add_handles_idempotent
           (mkRenderer 4 4 1 2 0 [[0;0;0;0]; [0;0;0;0]; [0;0;0;0]; [0;0;0;0]])).
  vm_compute. reflexivity.
Defined.

(** ** [add_border], loop by loop *)

Lemma add_border_ok (self : Renderer) (colour : Z) :
  region_size self <> 0 ->
  add_border self colour
  = Ok (mkRenderer (grown self (width self)) (grown self (height self))
          (regions self) (region_size self) (quiet_zone self)
          (repeat (blank_row self colour) (Z.to_nat (1 + quiet_zone self))
           ++ concat (map (border_rows self colour) (enumerate (matrix self)))
           ++ repeat (blank_row self colour) (Z.to_nat (1 + quiet_zone self)))).
Proof.
  intros Hrs. unfold add_border. cbv zeta.
  rewrite (for_snoc_ok _ _ (border_rows self colour)).
  - simpl. rewrite !for_pure_snoc_const, !length_range. simpl.
    assert (forall n, concat (repeat [blank_row self colour] n)
                      = repeat (blank_row self colour) n) as Hrep.
    { induction n as [|n IH]; simpl; congruence. }
    rewrite !Hrep. unfold grown, blank_row. by rewrite <- !app_assoc.
  - apply Forall_forall. intros [row_n row] _ acc.
    unfold mod_. destruct (Z.eqb_spec (region_size self) 0) as [|_]; [done|].
    unfold border_rows, border_row, blank_row, grown.
    destruct (0 <? row_n); simpl.
    + destruct (row_n mod region_size self =? 0); simpl.
      * unfold for_pure at 1. simpl. by rewrite <- !app_assoc.
      * done.
    + done.
Qed.

(** ** Blocks of rows and of cells *)

Lemma enumerate_enum_from {A} (l : list A) : enumerate l = enum_from 0 l.
Proof. unfold enumerate, enum_from, range, len. by rewrite Nat2Z.id. Qed.

Lemma enum_from_cons {A} (s : nat) (x : A) (l : list A) :
  enum_from s (x :: l) = (Z.of_nat s, x) :: enum_from (S s) l.
Proof. reflexivity. Qed.

Lemma enum_from_app {A} (s : nat) (a b : list A) :
  enum_from s (a ++ b) = enum_from s a ++ enum_from (s + length a) b.
Proof.
  revert s. induction a as [|x a IH]; intros s.
  - simpl. by rewrite Nat.add_0_r.
  - rewrite <- app_comm_cons, !enum_from_cons, IH. simpl.
    by rewrite Nat.add_succ_r.
Qed.

Lemma chunks_succ {A} (size count : nat) (l : list A) :
  chunks size (S count) l
  = chunks size count l ++ [take size (drop (count * size) l)].
Proof. unfold chunks. by rewrite seq_S, map_app. Qed.

Lemma length_chunks {A} (size count : nat) (l : list A) :
  length (chunks size count l) = count.
Proof. unfold chunks. by rewrite length_map, length_seq. Qed.

Lemma chunks_uniform {A} (size count : nat) (l : list A) :
  (count * size <= length l)%nat ->
  Forall (fun b => length b = size) (chunks size count l).
Proof.
  intros H. unfold chunks. apply Forall_map, Forall_forall.
  intros j Hj. apply elem_of_seq in Hj. simpl.
  rewrite length_take, length_drop. nia.
Qed.

Lemma concat_chunks {A} (size count : nat) (l : list A) :
  concat (chunks size count l) = take (count * size) l.
Proof.
  induction count as [|count IH]; [done|].
  rewrite chunks_succ, concat_app, IH. simpl. rewrite app_nil_r.
  rewrite take_take_drop. f_equal. lia.
Qed.

Lemma lookup_chunks {A} (size count j : nat) (l : list A) :
  (j < count)%nat ->
  chunks size count l !! j = Some (take size (drop (j * size) l)).
Proof.
  intros H. unfold chunks. rewrite list_lookup_fmap.
  by rewrite lookup_seq_lt.
Qed.

(** A lookup in a concatenation of blocks of one length. *)
Lemma lookup_concat_uniform {A} (ls : list (list A)) (k i : nat) :
  (0 < k)%nat -> Forall (fun l => length l = k) ls ->
  concat ls !! i
  = match ls !! (i / k)%nat with
    | Some l => l !! (i mod k)%nat
    | None => None
    end.
Proof.
  intros Hk H. revert i. induction H as [|l ls Hl _ IH]; intros i; simpl.
  - done.
  - destruct (decide (i < k)%nat) as [Hlt|Hge].
    + rewrite lookup_app_l by lia.
      rewrite Nat.div_small, Nat.mod_small by done. done.
    + rewrite lookup_app_r by lia. rewrite IH, Hl.
      assert (i / k = S ((i - k) / k))%nat as ->.
      { replace i with ((i - k) + 1 * k)%nat at 1 by lia.
        rewrite Nat.div_add by lia. lia. }
      assert (i mod k = (i - k) mod k)%nat as ->.
      { replace i with ((i - k) + 1 * k)%nat at 1 by lia.
        by rewrite Nat.Div0.mod_add. }
      done.
Qed.

Lemma slice_chunk {A} (row : list A) (i rs : nat) :
  (S i * rs <= length row)%nat ->
  slice row (Z.of_nat i * Z.of_nat rs) ((Z.of_nat i + 1) * Z.of_nat rs)
  = take rs (drop (i * rs) row).
Proof.
  intros H. unfold slice, clamp.
  destruct (Z.ltb_spec (Z.of_nat i * Z.of_nat rs) 0); [lia|].
  destruct (Z.ltb_spec ((Z.of_nat i + 1) * Z.of_nat rs) 0); [lia|].
  f_equal; [|f_equal]; nia.
Qed.

Section Border.
Variables (self : Renderer) (colour : Z) (Rn rsn : nat).
Hypothesis Hregions : regions self = Z.of_nat Rn.
Hypothesis Hsize : region_size self = Z.of_nat rsn.
Hypothesis Hquiet : quiet_zone self = 0.

Lemma border_row_loop (row : list Z) (k : nat) :
  (S k * rsn <= length row)%nat ->
  for_pure (range (Z.of_nat (S k))) (fun i new_row =>
    let part := slice row (i * region_size self) ((i + 1) * region_size self) in
    let new_row :=
      if 0 <? i then new_row ++ mul [colour] (1 * 2) else new_row in
    new_row ++ part) [colour]
  ++ [colour]
  = concat (map (frame_part colour) (chunks rsn (S k) row)).
Proof.
  induction k as [|k IH]; intros Hlen.
  - unfold for_pure, chunks, frame_part. simpl. rewrite Hsize.
    rewrite (slice_chunk row 0 rsn) by lia. simpl.
    by rewrite app_nil_r.
  - rewrite range_succ, for_pure_app, chunks_succ, map_app, concat_app.
    rewrite <- IH by lia. unfold for_pure at 1. cbn [fold_left].
    replace (0 <? Z.of_nat (S k)) with true by (symmetry; apply Z.ltb_lt; lia).
    rewrite Hsize.
    replace (Z.of_nat (S k) + 1) with (Z.of_nat (S k) + 1) by done.
    rewrite (slice_chunk row (S k) rsn) by lia.
    unfold frame_part. simpl. rewrite app_nil_r, <- !app_assoc. done.
Qed.

Lemma border_row_chunks (row : list Z) :
  (1 <= Rn)%nat -> (Rn * rsn <= length row)%nat ->
  border_row self colour row
  = concat (map (frame_part colour) (chunks rsn Rn row)).
Proof.
  intros HR Hlen. unfold border_row. rewrite Hregions, Hquiet.
  destruct Rn as [|k]; [lia|]. by apply border_row_loop.
Qed.

Lemma border_rows_inside (j : nat) (block : list (list Z)) (t : nat) :
  (1 <= t)%nat -> (t + length block <= rsn)%nat ->
  concat (map (border_rows self colour) (enum_from (j * rsn + t) block))
  = map (border_row self colour) block.
Proof.
  revert t. induction block as [|row block IH]; intros t Ht Hlen; [done|].
  rewrite enum_from_cons. cbn [map concat]. simpl in Hlen.
  replace (S (j * rsn + t)) with (j * rsn + S t)%nat by lia.
  rewrite IH by lia. unfold border_rows at 1. rewrite Hsize.
  replace (Z.of_nat (j * rsn + t) mod Z.of_nat rsn =? 0) with false.
  - by rewrite andb_false_r.
  - symmetry. apply Z.eqb_neq.
    replace (Z.of_nat (j * rsn + t))
      with (Z.of_nat t + Z.of_nat j * Z.of_nat rsn) by lia.
    rewrite Z.mod_add by lia. rewrite Z.mod_small by lia. lia.
Qed.

Lemma border_rows_block (j : nat) (block : list (list Z)) :
  (1 <= rsn)%nat -> length block = rsn ->
  concat (map (border_rows self colour) (enum_from (j * rsn) block))
  = (if (0 <? j)%nat
     then [blank_row self colour; blank_row self colour] else [])
    ++ map (border_row self colour) block.
Proof.
  intros Hrs Hlen. destruct block as [|row block]; [simpl in Hlen; lia|].
  rewrite enum_from_cons. cbn [map concat]. simpl in Hlen.
  replace (S (j * rsn)) with (j * rsn + 1)%nat by lia.
  rewrite border_rows_inside by lia.
  unfold border_rows. rewrite Hsize.
  replace (Z.of_nat (j * rsn) mod Z.of_nat rsn =? 0) with true.
  - rewrite andb_true_r. destruct j as [|j].
    + done.
    + replace (0 <? Z.of_nat (S j * rsn)) with true
        by (symmetry; apply Z.ltb_lt; nia).
      by rewrite <- app_assoc.
  - symmetry. apply Z.eqb_eq.
    replace (Z.of_nat (j * rsn)) with (Z.of_nat j * Z.of_nat rsn) by lia.
    apply Z.mod_mul. lia.
Qed.

Lemma border_matrix_loop (m : list (list Z)) (k : nat) :
  (1 <= rsn)%nat -> (S k * rsn <= length m)%nat ->
  [blank_row self colour]
  ++ concat (map (border_rows self colour) (enumerate (take (S k * rsn) m)))
  ++ [blank_row self colour]
  = concat (map (frame_block self colour) (chunks rsn (S k) m)).
Proof.
  intros Hrs. induction k as [|k IH]; intros Hlen.
  - rewrite enumerate_enum_from.
    replace (1 * rsn)%nat with rsn by lia.
    rewrite (border_rows_block 0) by (done || (rewrite length_take; lia)).
    unfold chunks, frame_block. simpl. by rewrite app_nil_r.
  - rewrite chunks_succ, map_app, concat_app. rewrite <- IH by lia.
    replace (S (S k) * rsn)%nat with (S k * rsn + rsn)%nat by lia.
    rewrite <- take_take_drop, !enumerate_enum_from, enum_from_app.
    rewrite map_app, concat_app.
    rewrite length_take_le by lia.
    rewrite (border_rows_block (S k))
      by (done || (rewrite length_take, length_drop; lia)).
    unfold frame_block. simpl. rewrite app_nil_r, <- !app_assoc. done.
Qed.

Lemma border_matrix_chunks (m : list (list Z)) :
  (1 <= rsn)%nat -> (1 <= Rn)%nat -> length m = (Rn * rsn)%nat ->
  [blank_row self colour]
  ++ concat (map (border_rows self colour) (enumerate m))
  ++ [blank_row self colour]
  = concat (map (frame_block self colour) (chunks rsn Rn m)).
Proof.
  intros Hrs HR Hlen. destruct Rn as [|k]; [lia|].
  rewrite <- border_matrix_loop by lia.
  by rewrite take_ge by lia.
Qed.

End Border.

(** ** The bordered grid, by position *)

Lemma chunks_map {A B} (f : A -> B) (size count : nat) (l : list A) :
  chunks size count (map f l) = map (map f) (chunks size count l).
Proof.
  unfold chunks. rewrite map_map. apply map_ext. intros j.
  by rewrite <- fmap_drop, <- fmap_take.
Qed.

Lemma length_frames {A} (a : A) (size count : nat) (l : list A) :
  (count * size <= length l)%nat ->
  length (frames a size count l) = (count * (size + 2))%nat.
Proof.
  intros H. unfold frames.
  rewrite (length_concat_uniform _ (size + 2)).
  - by rewrite length_map, length_chunks.
  - apply Forall_map. eapply Forall_impl; [by apply chunks_uniform|].
    intros part Hpart. simpl. rewrite length_app, Hpart. simpl. lia.
Qed.

Lemma lookup_frames {A} (a : A) (size count : nat) (l : list A) (i : nat) :
  (i < count * (size + 2))%nat -> (count * size <= length l)%nat ->
  frames a size count l !! i
  = if ((i mod (size + 2) =? 0) || (i mod (size + 2) =? size + 1))%nat
    then Some a
    else l !! ((i / (size + 2)) * size + i mod (size + 2) - 1)%nat.
Proof.
  intros Hi Hlen. unfold frames.
  rewrite (lookup_concat_uniform _ (size + 2)); [|lia|].
  - assert (i / (size + 2) < count)%nat as Hj
      by (apply Nat.Div0.div_lt_upper_bound; lia).
    rewrite list_lookup_fmap, (lookup_chunks _ _ _ _ Hj). simpl.
    pose proof (Nat.mod_upper_bound i (size + 2) ltac:(lia)) as Ho.
    destruct (Nat.eqb_spec (i mod (size + 2)) 0) as [->|H0]; [done|].
    destruct (Nat.eqb_spec (i mod (size + 2)) (size + 1)) as [->|H1]; simpl.
    + rewrite lookup_cons_ne_0 by lia.
      rewrite lookup_app_r; rewrite length_take, length_drop; [|nia].
      replace (Init.Nat.pred (size + 1) - size `min` (length l - i / (size + 2) * size))%nat
        with O by nia. done.
    + rewrite lookup_cons_ne_0 by lia.
      rewrite lookup_app_l by (rewrite length_take, length_drop; nia).
      rewrite lookup_take_lt by lia. rewrite lookup_drop. f_equal. lia.
  - apply Forall_map. eapply Forall_impl; [by apply chunks_uniform|].
    intros part Hpart. simpl. rewrite length_app, Hpart. simpl. lia.
Qed.

Lemma elem_of_chunks {A} (size count : nat) (l : list A) (part : list A) (x : A) :
  part ∈ chunks size count l -> x ∈ part -> x ∈ l.
Proof.
  unfold chunks. intros Hpart Hx.
  apply list_elem_of_fmap in Hpart as (j & -> & _).
  apply list_elem_of_lookup in Hx as [i Hi].
  rewrite lookup_take_Some in Hi. destruct Hi as [Hi _].
  rewrite lookup_drop in Hi. apply list_elem_of_lookup. eauto.
Qed.

Lemma elem_of_frames {A} (a : A) (size count : nat) (l : list A) (x : A) :
  x ∈ frames a size count l -> x = a \/ x ∈ l.
Proof.
  unfold frames. intros H. apply list_elem_of_In, in_concat in H as (b & Hb & Hx).
  apply in_map_iff in Hb as (part & <- & Hpart).
  apply list_elem_of_In in Hx, Hpart.
  rewrite !elem_of_app, !list_elem_of_singleton in Hx.
  destruct Hx as [->|[Hx| ->]]; [by left| |by left].
  right. by apply (elem_of_chunks size count l part).
Qed.

Lemma bordered_square (colour : Z) (count size : nat) (m : list (list Z)) :
  square (count * size) m ->
  square (count * (size + 2)) (bordered colour count size m).
Proof.
  intros [Hlen Hrows]. unfold bordered. split.
  - apply length_frames. rewrite length_map. lia.
  - apply Forall_forall. intros row Hrow.
    apply elem_of_frames in Hrow as [->|Hrow]; [apply repeat_length|].
    apply list_elem_of_fmap in Hrow as (row0 & -> & Hrow0).
    apply length_frames. rewrite Forall_forall in Hrows.
    rewrite (Hrows _ Hrow0). lia.
Qed.

Lemma add_border_bordered (m : list (list Z)) (colour : Z) (count size : nat) :
  (1 <= count)%nat -> (1 <= size)%nat -> square (count * size) m ->
  add_border (mkRenderer (Z.of_nat (count * size)) (Z.of_nat (count * size))
                (Z.of_nat count) (Z.of_nat size) 0 m) colour
  = Ok (mkRenderer (Z.of_nat (count * (size + 2)))
          (Z.of_nat (count * (size + 2)))
          (Z.of_nat count) (Z.of_nat size) 0
          (bordered colour count size m)).
Proof.
  intros Hcount Hsize [Hlen Hrows].
  set (self := mkRenderer _ _ _ _ _ _).
  rewrite add_border_ok by (simpl; lia).
  assert (grown self (Z.of_nat (count * size)) = Z.of_nat (count * (size + 2)))
    as Hgrown by (unfold grown; simpl; lia).
  assert (blank_row self colour = repeat colour (count * (size + 2))) as Hblank.
  { unfold blank_row. cbn [width self]. rewrite Hgrown, mul_singleton.
    by rewrite Nat2Z.id. }
  cbn [width height regions region_size quiet_zone matrix self].
  fold self. rewrite Hgrown. do 2 f_equal.
  change (Z.to_nat (1 + 0)) with 1%nat. cbn [repeat].
  rewrite (border_matrix_chunks self colour count size) by done.
  unfold bordered, frames at 1. rewrite chunks_map, map_map.
  f_equal. apply map_ext_in. intros block Hblock.
  unfold frame_block. rewrite Hblank. do 2 f_equal.
  apply map_ext_in. intros row Hrow.
  apply (border_row_chunks self colour count size); try done.
  rewrite Forall_forall in Hrows.
  rewrite (Hrows row); [lia|].
  apply (elem_of_chunks size count m block); by apply list_elem_of_In.
Qed.

(** ** Writes inside the grid *)

Lemma put_cell_in_grid (m : list (list Z)) (w h : nat) (p : Z * Z) (c : Z) :
  rect w h m -> in_grid w h p ->
  exists m', put_cell_matrix p c m = Ok m' /\ rect w h m' /\
             forall q, cell_at m' q
                       = if decide (q = p) then Some c else cell_at m q.
Proof.
  destruct p as [x y]. intros [Hh Hw] [Hx Hy]. simpl in Hx, Hy.
  destruct (lookup_lt_is_Some_2 m (Z.to_nat y)) as [row Hrow]; [lia|].
  assert (length row = w) as Hlen.
  { rewrite Forall_forall in Hw. apply Hw.
    apply list_elem_of_lookup. eauto. }
  exists (<[Z.to_nat y := <[Z.to_nat x := c]> row]> m). split; [|split].
  - apply put_cell_matrix_inv. exists (Z.to_nat y), (Z.to_nat x), row.
    split; [apply index_nonneg; lia|]. split; [done|].
    split; [apply index_nonneg; lia|done].
  - split; [by rewrite length_insert|].
    apply Forall_insert; [done|]. by rewrite length_insert.
  - intros [x' y']. unfold cell_at.
    destruct ((0 <=? x') && (0 <=? y')) eqn:E.
    + apply andb_true_iff in E as [Hx' Hy'].
      destruct (decide (Z.to_nat y = Z.to_nat y')) as [Heq|Hne].
      * rewrite <- Heq, list_lookup_insert_eq by lia. rewrite Hrow.
        destruct (decide (Z.to_nat x = Z.to_nat x')) as [Heq'|Hne'].
        -- rewrite <- Heq', list_lookup_insert_eq by lia.
           rewrite decide_True; [done|]. f_equal; lia.
        -- rewrite list_lookup_insert_ne by done.
           rewrite decide_False; [done|]. intros [= -> ->]. done.
      * rewrite list_lookup_insert_ne by done.
        rewrite decide_False; [done|]. intros [= -> ->]. done.
    + rewrite decide_False; [done|]. intros [= -> ->].
      apply andb_false_iff in E. lia.
Qed.

Lemma stamp_matrix_in_grid (ps : list (Z * Z)) (m : list (list Z)) (w h : nat) :
  rect w h m -> Forall (in_grid w h) ps ->
  exists m', stamp_matrix ps m = Ok m' /\ rect w h m' /\
             forall q, cell_at m' q
                       = if decide (q ∈ ps) then Some 1 else cell_at m q.
Proof.
  intros Hm Hps. revert m Hm. unfold stamp_matrix.
  induction Hps as [|p ps Hp _ IH]; intros m Hm.
  - exists m. split; [done|]. split; [done|]. intros q.
    rewrite decide_False; [done|]. apply not_elem_of_nil.
  - destruct (put_cell_in_grid m w h p 1 Hm Hp) as (m1 & H1 & Hm1 & Hc1).
    destruct (IH m1 Hm1) as (m' & H' & Hm' & Hc').
    exists m'. split; [simpl; by rewrite H1|]. split; [done|].
    intros q. rewrite Hc', Hc1.
    destruct (decide (q ∈ ps)) as [Hin|Hnin].
    + rewrite decide_True; [done|]. by right.
    + destruct (decide (q = p)) as [->|Hne].
      * rewrite decide_True; [done|]. by left.
      * rewrite decide_False; [done|].
        intros Hq. apply elem_of_cons in Hq as [?|?]; done.
Qed.

(** ** The handle cells are inside the bordered grid *)

Lemma elem_of_range3_up (a b i : Z) : i ∈ range3 a b 2 -> a <= i < b.
Proof.
  unfold range3. simpl. intros H.
  apply list_elem_of_fmap in H as (k & -> & Hk).
  destruct (a <? b) eqn:E.
  - apply elem_of_range in Hk. apply Z.ltb_lt in E.
    assert (2 * ((b - a - 1) / 2) <= b - a - 1)
      by (apply Z.mul_div_le; lia). lia.
  - rewrite range_nonpos in Hk by lia. by apply elem_of_nil in Hk.
Qed.

Lemma elem_of_range3_down (a b i : Z) : i ∈ range3 a b (-2) -> b < i <= a.
Proof.
  unfold range3. simpl. intros H.
  apply list_elem_of_fmap in H as (k & -> & Hk).
  destruct (b <? a) eqn:E.
  - apply elem_of_range in Hk. apply Z.ltb_lt in E.
    change (- (-2)) with 2 in Hk.
    assert (2 * ((a - b - 1) / 2) <= a - b - 1)
      by (apply Z.mul_div_le; lia). lia.
  - rewrite range_nonpos in Hk by lia. by apply elem_of_nil in Hk.
Qed.

Lemma handle_cells_in_grid (self : Renderer) (count size : nat) :
  regions self = Z.of_nat count -> region_size self = Z.of_nat size ->
  quiet_zone self = 0 ->
  Forall (in_grid (count * (size + 2)) (count * (size + 2))) (handle_cells self).
Proof.
  intros HR Hrs Hq. apply Forall_forall. intros [x y] H.
  rewrite handle_cells_regions in H.
  apply list_elem_of_In, in_flat_map in H as (xi & Hxi & H).
  apply in_flat_map in H as (yi & Hyi & H).
  apply list_elem_of_In, elem_of_range in Hxi, Hyi.
  apply list_elem_of_In in H. unfold region_handle_cells in H.
  rewrite HR in Hxi, Hyi. rewrite Hrs, Hq in H.
  rewrite !elem_of_app, !list_elem_of_fmap in H.
  unfold in_grid. simpl.
  destruct H as [(i & [= -> ->] & Hi)|[(i & [= -> ->] & Hi)|
                 [(i & [= -> ->] & Hi)|(i & [= -> ->] & Hi)]]].
  - apply elem_of_range2 in Hi. nia.
  - apply elem_of_range2 in Hi. nia.
  - apply elem_of_range3_up in Hi. nia.
  - apply elem_of_range3_down in Hi. nia.
Qed.

(** ** Border cells and content cells *)

Lemma lookup_repeat {A} (a : A) (n i : nat) :
  (i < n)%nat -> repeat a n !! i = Some a.
Proof.
  revert i. induction n as [|n IH]; intros i Hi; [lia|].
  destruct i as [|i]; simpl; [done|]. apply IH. lia.
Qed.

Lemma gap_index_nat (size i : nat) :
  gap_index (Z.of_nat size) (Z.of_nat i)
  = ((i mod (size + 2) =? 0) || (i mod (size + 2) =? size + 1))%nat.
Proof.
  unfold gap_index.
  replace (Z.of_nat size + 2) with (Z.of_nat (size + 2)) by lia.
  rewrite <- Nat2Z.inj_mod.
  destruct (Nat.eqb_spec (i mod (size + 2)) 0) as [->|H0]; [done|].
  destruct (Nat.eqb_spec (i mod (size + 2)) (size + 1)) as [->|H1]; simpl.
  - replace (Z.of_nat (size + 1) =? Z.of_nat size + 1) with true
      by (symmetry; apply Z.eqb_eq; lia). apply orb_true_r.
  - replace (Z.of_nat (i mod (size + 2)) =? 0) with false
      by (symmetry; apply Z.eqb_neq; lia).
    replace (Z.of_nat (i mod (size + 2)) =? Z.of_nat size + 1) with false
      by (symmetry; apply Z.eqb_neq; lia). done.
Qed.

Lemma source_index_nat (size i : nat) :
  (i mod (size + 2))%nat <> 0%nat ->
  source_index (Z.of_nat size) (Z.of_nat i)
  = Z.of_nat (i / (size + 2) * size + i mod (size + 2) - 1).
Proof.
  intros H. unfold source_index.
  replace (Z.of_nat size + 2) with (Z.of_nat (size + 2)) by lia.
  rewrite <- Nat2Z.inj_mod, <- Nat2Z.inj_div. lia.
Qed.

Lemma cell_at_bordered_nat (colour : Z) (count size : nat) (m : list (list Z))
  (x y : nat) :
  square (count * size) m ->
  (x < count * (size + 2))%nat -> (y < count * (size + 2))%nat ->
  cell_at (bordered colour count size m) (Z.of_nat x, Z.of_nat y)
  = if border_cell (Z.of_nat size) (Z.of_nat x, Z.of_nat y)
    then Some colour
    else cell_at m (source_index (Z.of_nat size) (Z.of_nat x),
                    source_index (Z.of_nat size) (Z.of_nat y)).
Proof.
  intros [Hlen Hrows] Hx Hy. unfold cell_at, border_cell. cbn [fst snd].
  replace ((0 <=? Z.of_nat x) && (0 <=? Z.of_nat y)) with true
    by (symmetry; apply andb_true_iff; lia).
  rewrite !Nat2Z.id, !gap_index_nat. unfold bordered.
  rewrite lookup_frames by (rewrite ?length_map; lia).
  pose proof (Nat.mod_upper_bound x (size + 2) ltac:(lia)) as Hox.
  pose proof (Nat.mod_upper_bound y (size + 2) ltac:(lia)) as Hoy.
  assert (x / (size + 2) < count)%nat as Hjx
    by (apply Nat.Div0.div_lt_upper_bound; lia).
  assert (y / (size + 2) < count)%nat as Hjy
    by (apply Nat.Div0.div_lt_upper_bound; lia).
  destruct ((y mod (size + 2) =? 0) || (y mod (size + 2) =? size + 1))%nat
    eqn:Egy.
  - rewrite lookup_repeat by done. by rewrite orb_true_r.
  - apply orb_false_iff in Egy as [Ey0 Ey1].
    apply Nat.eqb_neq in Ey0, Ey1.
    rewrite orb_false_r, list_lookup_fmap.
    destruct (lookup_lt_is_Some_2 m
                (y / (size + 2) * size + y mod (size + 2) - 1))
      as [row Hrow]; [nia|].
    rewrite Hrow. simpl.
    assert (length row = (count * size)%nat) as Hrowlen.
    { rewrite Forall_forall in Hrows. apply Hrows.
      apply list_elem_of_lookup. eauto. }
    rewrite lookup_frames by lia.
    destruct ((x mod (size + 2) =? 0) || (x mod (size + 2) =? size + 1))%nat
      eqn:Egx; [done|].
    apply orb_false_iff in Egx as [Ex0 Ex1].
    apply Nat.eqb_neq in Ex0, Ex1.
    rewrite !source_index_nat by done.
    replace ((0 <=? Z.of_nat (x / (size + 2) * size + x mod (size + 2) - 1))
             && (0 <=? Z.of_nat (y / (size + 2) * size + y mod (size + 2) - 1)))
      with true
      by (symmetry; apply andb_true_iff; split;
          apply Z.leb_le, Nat2Z.is_nonneg).
    by rewrite !Nat2Z.id, Hrow.
Qed.

Lemma cell_at_bordered (colour : Z) (count size : nat) (m : list (list Z))
  (x y : Z) :
  square (count * size) m ->
  0 <= x < Z.of_nat (count * (size + 2)) ->
  0 <= y < Z.of_nat (count * (size + 2)) ->
  cell_at (bordered colour count size m) (x, y)
  = if border_cell (Z.of_nat size) (x, y)
    then Some colour
    else cell_at m (source_index (Z.of_nat size) x,
                    source_index (Z.of_nat size) y).
Proof.
  intros Hm Hx Hy.
  rewrite <- (Z2Nat.id x), <- (Z2Nat.id y) by lia.
  apply cell_at_bordered_nat; [done|lia|lia].
Qed.

(** ** Construction on a valid input *)

Lemma getitem_head {A} (x : A) (l : list A) : getitem (x :: l) 0 = Ok x.
Proof.
  unfold getitem. rewrite (index_nonneg (length (x :: l)) 0); [done|].
  simpl. lia.
Qed.

(** The number of regions and the region size as natural numbers. *)
Lemma valid_layout (n : nat) (R : Z) :
  (0 < n)%nat -> 1 <= R -> Z.of_nat n mod R = 0 ->
  let count := Z.to_nat R in
  let size := Z.to_nat (Z.of_nat n / R) in
  n = (count * size)%nat /\ (1 <= count)%nat /\ (1 <= size)%nat /\
  Z.of_nat count = R /\ Z.of_nat size = Z.of_nat n / R.
Proof.
  intros Hn HR Hmod count size.
  assert (Z.of_nat n = R * (Z.of_nat n / R)) as Hexact
    by (apply Z_div_exact_full_2; lia).
  assert (1 <= Z.of_nat n / R) by nia.
  subst count size. split; [nia|]. split; [lia|]. split; [lia|].
  split; lia.
Qed.

Lemma add_border_valid (m : list (list Z)) (n : nat) (R colour : Z) :
  (0 < n)%nat -> square n m -> 1 <= R -> Z.of_nat n mod R = 0 ->
  let count := Z.to_nat R in
  let size := Z.to_nat (Z.of_nat n / R) in
  let side := Z.of_nat (count * (size + 2)) in
  add_border (mkRenderer (Z.of_nat n) (Z.of_nat n) R (Z.of_nat n / R) 0 m)
             colour
  = Ok (mkRenderer side side R (Z.of_nat n / R) 0
          (bordered colour count size m)).
Proof.
  intros Hn Hm HR Hmod count size side.
  destruct (valid_layout n R Hn HR Hmod) as (Hcs & Hc & Hs & HcR & HsR).
  fold count size in Hcs, Hc, Hs, HcR, HsR.
  assert (mkRenderer (Z.of_nat n) (Z.of_nat n) R (Z.of_nat n / R) 0 m
          = mkRenderer (Z.of_nat (count * size)) (Z.of_nat (count * size))
              (Z.of_nat count) (Z.of_nat size) 0 m) as ->
    by (by rewrite HcR, HsR, <- Hcs).
  rewrite add_border_bordered; [|done|done|by rewrite <- Hcs].
  by rewrite HcR, HsR.
Qed.

Lemma init_valid (m : list (list Z)) (n : nat) (R : Z) :
  (0 < n)%nat -> square n m -> 1 <= R -> Z.of_nat n mod R = 0 ->
  let count := Z.to_nat R in
  let size := Z.to_nat (Z.of_nat n / R) in
  let side := Z.of_nat (count * (size + 2)) in
  let b := mkRenderer side side R (Z.of_nat n / R) 0
             (bordered 0 count size m) in
  exists m',
    init m R = Ok (set_matrix b m') /\
    add_handles b = Ok (set_matrix b m') /\
    rect (count * (size + 2)) (count * (size + 2)) m' /\
    forall q, cell_at m' q
              = if decide (q ∈ handle_cells b) then Some 1
                else cell_at (bordered 0 count size m) q.
Proof.
  intros Hn Hm HR Hmod count size side b.
  destruct (valid_layout n R Hn HR Hmod) as (Hcs & Hc & Hs & HcR & HsR).
  fold count size in Hcs, Hc, Hs, HcR, HsR.
  assert (rect (count * (size + 2)) (count * (size + 2)) (matrix b)) as Hrect.
  { apply (bordered_square 0 count size m). by rewrite <- Hcs. }
  assert (Forall (in_grid (count * (size + 2)) (count * (size + 2)))
                 (handle_cells b)) as Hgrid
    by (by apply handle_cells_in_grid).
  destruct (stamp_matrix_in_grid _ _ _ _ Hrect Hgrid) as (m' & Hst & Hr' & Hc').
  exists m'. split; [|split; [|split]]; try done.
  - unfold init. destruct Hm as [Hlen Hrows].
    destruct m as [|row0 rest]; [simpl in Hlen; lia|].
    assert (len row0 = Z.of_nat n) as Hrow0
      by (apply Forall_inv in Hrows; unfold len; lia).
    assert (len (row0 :: rest) = Z.of_nat n) as Hlen'
      by (unfold len; lia).
    rewrite getitem_head. cbn [bind]. rewrite Hrow0, Hlen'.
    unfold floordiv. destruct (Z.eqb_spec R 0) as [|_]; [lia|].
    cbn [bind].
    rewrite (add_border_valid (row0 :: rest) n R 0 Hn (conj Hlen Hrows) HR Hmod).
    cbn [bind]. fold count size side b.
    by rewrite add_handles_stamp, stamp_eq, Hst.
  - by rewrite add_handles_stamp, stamp_eq, Hst.
Qed.

(** ** Claims on the construction *)

(** C1. For a non-empty square grid of side [n] and [regions >= 1] dividing
    [n], construction succeeds, the fields [width] and [height] and the
    number of rows of the matrix are
    [n + 2*gap + 2*quiet_zone + (regions-1)*2*gap] with [gap = 1] and
    [quiet_zone = 0], and every row of the matrix has that length. *)
Theorem init_dimensions (m : list (list Z)) (n : nat) (regions : Z) :
  (0 < n)%nat -> square n m -> 1 <= regions -> Z.of_nat n mod regions = 0 ->
  exists r,
    init m regions = Ok r /\
    quiet_zone r = 0 /\
    let gap := 1 in
    let new := Z.of_nat n + 2 * gap + 2 * quiet_zone r
               + (regions - 1) * 2 * gap in
    width r = new /\ height r = new /\ len (matrix r) = new /\
    Forall (fun row => len row = new) (matrix r).
Proof.
  intros Hn Hm HR Hmod.
  destruct (init_valid m n regions Hn Hm HR Hmod)
    as (m' & Hinit & _ & [Hlen Hrows] & _).
  destruct (valid_layout n regions Hn HR Hmod) as (Hcs & Hc & Hs & HcR & HsR).
  eexists. split; [exact Hinit|]. split; [done|].
  cbn [width height quiet_zone matrix set_matrix]. unfold len.
  assert (Z.of_nat (Z.to_nat regions * (Z.to_nat (Z.of_nat n / regions) + 2))
          = Z.of_nat n + 2 * 1 + 2 * 0 + (regions - 1) * 2 * 1) as Hside by nia.
  rewrite <- Hside. split; [done|]. split; [done|].
  split; [by rewrite Hlen|].
  eapply Forall_impl; [exact Hrows|]. intros row Hrow. simpl in *. by rewrite Hrow.
Qed.

(** The 10x10 grid of zeros with two regions gives a 14x14 grid. *)
Lemma init_dimensions_witness :
  exists r, init (zeros 10 10) 2 = Ok r /\
            width r = 14 /\ height r = 14 /\ len (matrix r) = 14 /\
            Forall (fun row => len row = 14) (matrix r).
Proof.
  destruct (init_dimensions (zeros 10 10) 10 2)
    as (r & Hinit & Hq & Hw & Hh & Hl & Hrows).
  - lia.
  - by_decide.
  - lia.
  - reflexivity.
  - exists r. rewrite Hq in Hw, Hh, Hl, Hrows. simpl in Hw, Hh, Hl, Hrows.
    repeat split; assumption.
Defined.

(** C2, as the code has it.  The claim fails: after the construction of the
    2x2 grid of zeros with one region, the frame cell at column 1 of row 0
    holds 0. *)
Lemma border_cells_not_all_one :
  exists r, init (zeros 2 2) 1 = Ok r /\
            border_cell (region_size r) (1, 0) = true /\
            cell_at (matrix r) (1, 0) = Some 0.
Proof. eexists. split; [vm_compute; reflexivity|]. by vm_compute. Qed.

(** C2, amended.  For a valid input, the cells inserted by [add_border] (a
    column or a row that is the first or the last of a block of
    [region_size + 2]) hold the colour given to [add_border], the other
    cells hold the input grid, and construction gives the colour 0; after
    construction an inserted cell holds 1 when [add_handles] stamped it and
    0 otherwise. *)
Theorem border_cells_colour (m : list (list Z)) (n : nat) (regions : Z) :
  (0 < n)%nat -> square n m -> 1 <= regions -> Z.of_nat n mod regions = 0 ->
  let size := Z.of_nat n / regions in
  let side := Z.of_nat n + 2 * regions in
  (forall colour, exists b,
     add_border (mkRenderer (Z.of_nat n) (Z.of_nat n) regions size 0 m) colour
     = Ok b /\
     forall x y, 0 <= x < side -> 0 <= y < side ->
       cell_at (matrix b) (x, y)
       = if border_cell size (x, y) then Some colour
         else cell_at m (source_index size x, source_index size y)) /\
  (exists r,
     init m regions = Ok r /\
     forall x y, 0 <= x < side -> 0 <= y < side ->
       border_cell size (x, y) = true ->
       cell_at (matrix r) (x, y)
       = Some (if bool_decide ((x, y) ∈ handle_cells r) then 1 else 0)).
Proof.
  intros Hn Hm HR Hmod size side.
  destruct (valid_layout n regions Hn HR Hmod) as (Hcs & Hc & Hs & HcR & HsR).
  pose proof (init_valid m n regions Hn Hm HR Hmod) as Hinit.
  pose proof (fun colour => add_border_valid m n regions colour Hn Hm HR Hmod)
    as Hborder.
  cbv zeta in Hinit, Hborder. subst size.
  set (sz := Z.to_nat (Z.of_nat n / regions)) in *.
  set (cnt := Z.to_nat regions) in *.
  assert (side = Z.of_nat (cnt * (sz + 2))) as Hside by (subst side; nia).
  assert (square (cnt * sz) m) as Hm' by (by rewrite <- Hcs).
  rewrite <- HsR in *. split.
  - intros colour. eexists. split; [apply Hborder|].
    intros x y Hx Hy. cbn [matrix].
    apply cell_at_bordered; [done|lia|lia].
  - destruct Hinit as (m' & Hinit & _ & _ & Hcells).
    eexists. split; [exact Hinit|]. intros x y Hx Hy Hb.
    cbn [matrix set_matrix]. rewrite Hcells, handle_cells_set_matrix.
    destruct (decide _) as [Hin|Hnin].
    + by rewrite bool_decide_eq_true_2.
    + rewrite bool_decide_eq_false_2 by done.
      rewrite cell_at_bordered by (done || lia). by rewrite Hb.
Qed.

(** The amended claim at the 2x2 grid of zeros with one region: the frame
    cell at column 1 of row 0 holds 0 and the one at column 0 holds 1. *)
Lemma border_cells_colour_witness :
  exists r, init (zeros 2 2) 1 = Ok r /\
            cell_at (matrix r) (1, 0) = Some 0 /\
            cell_at (matrix r) (0, 0) = Some 1.
Proof.
  destruct (border_cells_colour (zeros 2 2) 2 1) as (_ & r & Hinit & Hcells).
  - lia.
  - by_decide.
  - lia.
  - reflexivity.
  - exists r. split; [exact Hinit|].
    pose proof (Hcells 1 0 ltac:(simpl; lia) ltac:(simpl; lia) eq_refl) as H10.
    pose proof (Hcells 0 0 ltac:(simpl; lia) ltac:(simpl; lia) eq_refl) as H00.
    vm_compute in Hinit. injection Hinit as <-.
    split; [exact H10 | exact H00].
Defined.

(** C3, as the code has it.  The claim fails: a 10x10 grid with 3 regions, or
    with -1 region, is constructed without any error; with 3 regions the
    result is ragged (its row 1 has 15 cells, the width field is 16). *)
Lemma invalid_regions_accepted :
  10 mod 3 <> 0 /\
  (exists r row, init (zeros 10 10) 3 = Ok r /\
                 matrix r !! 1%nat = Some row /\
                 len row = 15 /\ width r = 16) /\
  (exists r, init (zeros 10 10) (-1) = Ok r).
Proof.
  split; [done|]. split.
  - eexists _, _. split; [vm_compute; reflexivity|]. by vm_compute.
  - eexists. vm_compute. reflexivity.
Qed.

Lemma add_handles_no_region (self : Renderer) :
  regions self <= 0 -> add_handles self = Ok self.
Proof. intros H. unfold add_handles. by rewrite range_nonpos. Qed.

(** C3, amended.  The constructor checks nothing and there is no
    InvalidLayout error.  For a non-empty matrix: with [regions = 0] it
    raises [ZeroDivisionError], from the division that computes the region
    size, before the border is built; with [regions < 0] it raises nothing
    and returns the renderer of the border step. *)
Theorem init_invalid_regions (m : list (list Z)) (regions : Z) :
  m <> [] ->
  (regions = 0 -> init m regions = Raise ZeroDivisionError) /\
  (regions < 0 ->
   exists row0 r,
     m !! 0%nat = Some row0 /\
     add_border (mkRenderer (len m) (len row0) regions (len m / regions) 0 m) 0
     = Ok r /\
     init m regions = Ok r).
Proof.
  intros Hm. destruct m as [|row0 rest]; [done|]. split.
  - intros ->. unfold init. rewrite getitem_head. reflexivity.
  - intros HR.
    set (self := mkRenderer (len (row0 :: rest)) (len row0) regions
                   (len (row0 :: rest) / regions) 0 (row0 :: rest)).
    assert (region_size self <> 0) as Hrs.
    { subst self. cbn [region_size]. unfold len. cbn [length].
      intros H0. apply Z.div_small_iff in H0; lia. }
    exists row0. eexists. split; [done|].
    split; [exact (add_border_ok self 0 Hrs)|].
    unfold init. rewrite getitem_head. cbn [bind].
    unfold floordiv. destruct (Z.eqb_spec regions 0) as [|_]; [lia|].
    cbn [bind]. fold self. rewrite (add_border_ok self 0 Hrs). cbn [bind].
    apply add_handles_no_region. simpl. lia.
Qed.

(** The amended claim at the 2x2 grid of zeros, with 0 and with -2
    regions. *)
Lemma init_invalid_regions_witness :
  init (zeros 2 2) 0 = Raise ZeroDivisionError /\
  exists r, init (zeros 2 2) (-2) = Ok r.
Proof.
  destruct (init_invalid_regions (zeros 2 2) 0) as [H0 _]; [discriminate|].
  destruct (init_invalid_regions (zeros 2 2) (-2)) as [_ Hneg]; [discriminate|].
  split; [by apply H0|].
  destruct Hneg as (row0 & r & _ & _ & Hinit); [lia|]. by exists r.
Defined.

(** * Further properties of the code *)

(** ** The finder pattern *)

Lemma elem_of_range3_up_iff (a b i : Z) :
  i ∈ range3 a b 2 <-> a <= i < b /\ (i - a) mod 2 = 0.
Proof.
  split.
  - intros H. split; [by apply elem_of_range3_up|].
    unfold range3 in H. apply list_elem_of_fmap in H as (k & -> & _).
    replace (a + k * 2 - a) with (k * 2) by lia. apply Z.mod_mul. lia.
  - intros [Hi Hmod]. unfold range3. simpl.
    apply list_elem_of_fmap. exists ((i - a) / 2).
    assert (i - a = 2 * ((i - a) / 2)) as Hex
      by (apply Z_div_exact_full_2; lia).
    split; [lia|].
    replace (a <? b) with true by (symmetry; apply Z.ltb_lt; lia).
    apply elem_of_range. split; [apply Z.div_pos; lia|].
    assert ((i - a) / 2 <= (b - a - 1) / 2)
      by (apply Z.div_le_mono; lia). lia.
Qed.

Lemma elem_of_range3_down_iff (a b i : Z) :
  i ∈ range3 a b (-2) <-> b < i <= a /\ (a - i) mod 2 = 0.
Proof.
  split.
  - intros H. split; [by apply elem_of_range3_down|].
    unfold range3 in H. apply list_elem_of_fmap in H as (k & -> & _).
    replace (a - (a + k * -2)) with (k * 2) by lia. apply Z.mod_mul. lia.
  - intros [Hi Hmod]. unfold range3. simpl.
    apply list_elem_of_fmap. exists ((a - i) / 2).
    assert (a - i = 2 * ((a - i) / 2)) as Hex
      by (apply Z_div_exact_full_2; lia).
    split; [lia|].
    replace (b <? a) with true by (symmetry; apply Z.ltb_lt; lia).
    change (- (-2)) with 2.
    apply elem_of_range. split; [apply Z.div_pos; lia|].
    assert ((a - i) / 2 <= (a - b - 1) / 2)
      by (apply Z.div_le_mono; lia). lia.
Qed.

Lemma elem_of_handle_cells (self : Renderer) (x y : Z) :
  quiet_zone self = 0 ->
  (x, y) ∈ handle_cells self <->
  exists xi yi,
    0 <= xi < regions self /\ 0 <= yi < regions self /\
    let xo := xi * (region_size self + 2) in
    let yo := yi * (region_size self + 2) in
    let xm := xo + region_size self + 1 in
    let ym := yo + region_size self + 1 in
    (y = ym /\ xo <= x < xm) \/
    (x = xo /\ yo <= y < ym) \/
    (y = yo /\ (xo <= x < xm /\ (x - xo) mod 2 = 0)) \/
    (x = xm /\ (yo < y <= ym /\ (ym - y) mod 2 = 0)).
Proof.
  intros Hq. rewrite handle_cells_regions.
  rewrite list_elem_of_In, in_flat_map.
  setoid_rewrite in_flat_map. unfold region_handle_cells.
  rewrite Hq. setoid_rewrite Z.add_0_r.
  split.
  - intros (xi & Hxi & yi & Hyi & H).
    apply list_elem_of_In, elem_of_range in Hxi, Hyi.
    exists xi, yi. split; [done|]. split; [done|]. cbv zeta.
    apply list_elem_of_In in H.
    rewrite !elem_of_app, !list_elem_of_fmap in H.
    destruct H as [(i & [= -> ->] & Hi)|[(i & [= -> ->] & Hi)|
                   [(i & [= -> ->] & Hi)|(i & [= -> ->] & Hi)]]].
    + left. apply elem_of_range2 in Hi. done.
    + right; left. apply elem_of_range2 in Hi. done.
    + right; right; left. apply elem_of_range3_up_iff in Hi. done.
    + right; right; right. apply elem_of_range3_down_iff in Hi. done.
  - intros (xi & yi & Hxi & Hyi & H). cbv zeta in H.
    exists xi. split; [by apply list_elem_of_In, elem_of_range|].
    exists yi. split; [by apply list_elem_of_In, elem_of_range|].
    apply list_elem_of_In. rewrite !elem_of_app, !list_elem_of_fmap.
    destruct H as [[-> H]|[[-> H]|[[-> H]|[-> H]]]].
    + left. exists x. split; [done|]. by apply elem_of_range2.
    + right; left. exists y. split; [done|]. by apply elem_of_range2.
    + right; right; left. exists x. split; [done|].
      by apply elem_of_range3_up_iff.
    + right; right; right. exists y. split; [done|].
      by apply elem_of_range3_down_iff.
Qed.

Lemma mod_offset (K q t : Z) : 0 <= t < K -> (q * K + t) mod K = t.
Proof.
  intros H. rewrite Z.add_comm, Z.mod_add by lia. apply Z.mod_small. lia.
Qed.

Lemma mod_block (K q x : Z) : q * K <= x < q * K + K -> x mod K = x - q * K.
Proof.
  intros H. replace x with (q * K + (x - q * K)) at 1 by lia.
  apply mod_offset. lia.
Qed.

Lemma handle_cell_spec (self : Renderer) (count size : nat) (x y : Z) :
  regions self = Z.of_nat count -> region_size self = Z.of_nat size ->
  quiet_zone self = 0 ->
  0 <= x < Z.of_nat (count * (size + 2)) ->
  0 <= y < Z.of_nat (count * (size + 2)) ->
  (x, y) ∈ handle_cells self <-> handle_cell (Z.of_nat size) (x, y) = true.
Proof.
  intros HR Hrs Hq Hx Hy. rewrite elem_of_handle_cells by done.
  rewrite HR, Hrs. unfold handle_cell. cbn [fst snd]. cbv zeta.
  set (s := Z.of_nat size). assert (0 <= s) as Hs by lia.
  rewrite !orb_true_iff, !andb_true_iff, !Z.eqb_eq, !Z.leb_le.
  split.
  - intros (xi & yi & Hxi & Hyi & H).
    assert (x mod (s + 2) = x - xi * (s + 2)
            /\ y mod (s + 2) = y - yi * (s + 2)) as [-> ->]
      by (split; apply mod_block; lia).
    destruct H as [[E H]|[[E H]|[[E [H Hpar]]|[E [H Hpar]]]]].
    + left; left; left. lia.
    + left; left; right. lia.
    + left; right. split; [lia|]. exact Hpar.
    + right. split; [lia|].
      replace (s + 1 - (y - yi * (s + 2)))
        with (yi * (s + 2) + s + 1 - y) by lia. exact Hpar.
  - intros H.
    pose proof (Z.div_mod x (s + 2) ltac:(lia)) as Hdx.
    pose proof (Z.div_mod y (s + 2) ltac:(lia)) as Hdy.
    pose proof (Z.mod_pos_bound x (s + 2) ltac:(lia)) as Hox.
    pose proof (Z.mod_pos_bound y (s + 2) ltac:(lia)) as Hoy.
    assert (0 <= x / (s + 2) < Z.of_nat count) as Hxi.
    { split; [apply Z.div_pos; lia|].
      apply Z.div_lt_upper_bound; [lia|]. subst s. nia. }
    assert (0 <= y / (s + 2) < Z.of_nat count) as Hyi.
    { split; [apply Z.div_pos; lia|].
      apply Z.div_lt_upper_bound; [lia|]. subst s. nia. }
    exists (x / (s + 2)), (y / (s + 2)).
    split; [done|]. split; [done|].
    set (ox := x mod (s + 2)) in *. set (oy := y mod (s + 2)) in *.
    set (xi := x / (s + 2)) in *. set (yi := y / (s + 2)) in *.
    destruct H as [[[[H1 H2]|[H1 H2]]|[[H1 H2] Hpar]]|[[H1 H2] Hpar]].
    + left. lia.
    + right; left. lia.
    + right; right; left. split; [lia|]. split; [lia|].
      replace (x - xi * (s + 2)) with ox by lia. exact Hpar.
    + right; right; right. split; [lia|]. split; [lia|].
      replace (yi * (s + 2) + s + 1 - y) with (s + 1 - oy) by lia.
      exact Hpar.
Qed.

Lemma handle_cell_border (size : Z) (p : Z * Z) :
  handle_cell size p = true -> border_cell size p = true.
Proof.
  unfold handle_cell, border_cell, gap_index. cbv zeta.
  rewrite !orb_true_iff, !andb_true_iff, !Z.eqb_eq, !Z.leb_le.
  intros H. lia.
Qed.

(** Every cell of the constructed grid, by its position. *)
Lemma init_cells (m : list (list Z)) (n : nat) (R : Z) :
  (0 < n)%nat -> square n m -> 1 <= R -> Z.of_nat n mod R = 0 ->
  let size := Z.of_nat n / R in
  let side := Z.of_nat n + 2 * R in
  exists r,
    init m R = Ok r /\
    forall x y, 0 <= x < side -> 0 <= y < side ->
      cell_at (matrix r) (x, y)
      = if border_cell size (x, y)
        then Some (if handle_cell size (x, y) then 1 else 0)
        else cell_at m (source_index size x, source_index size y).
Proof.
  intros Hn Hm HR Hmod size side.
  destruct (valid_layout n R Hn HR Hmod) as (Hcs & Hc & Hs & HcR & HsR).
  pose proof (init_valid m n R Hn Hm HR Hmod) as Hinit.
  cbv zeta in Hinit. subst size.
  set (sz := Z.to_nat (Z.of_nat n / R)) in *.
  set (cnt := Z.to_nat R) in *.
  assert (side = Z.of_nat (cnt * (sz + 2))) as Hside by (subst side; nia).
  assert (square (cnt * sz) m) as Hm' by (by rewrite <- Hcs).
  rewrite <- HsR in *.
  destruct Hinit as (m' & Hinit & _ & _ & Hcells).
  eexists. split; [exact Hinit|]. intros x y Hx Hy.
  cbn [matrix set_matrix]. rewrite Hcells.
  pose proof (handle_cell_spec
                (mkRenderer (Z.of_nat (cnt * (sz + 2)))
                   (Z.of_nat (cnt * (sz + 2))) R (Z.of_nat sz) 0
                   (bordered 0 cnt sz m)) cnt sz x y) as Hspec.
  cbn [regions region_size quiet_zone] in Hspec.
  specialize (Hspec (eq_sym HcR) eq_refl eq_refl ltac:(lia) ltac:(lia)).
  destruct (decide _) as [Hin|Hnin].
  - apply Hspec in Hin. by rewrite (handle_cell_border _ _ Hin), Hin.
  - rewrite cell_at_bordered by (done || lia).
    destruct (border_cell (Z.of_nat sz) (x, y)); [|done].
    destruct (handle_cell (Z.of_nat sz) (x, y)) eqn:E; [|done].
    destruct Hnin. by apply Hspec.
Qed.

(** The finder pattern.  After the construction of a valid grid, an inserted
    cell holds 1 exactly on the solid bottom row and left column of its
    region and on every other cell of its top row (from the left) and of its
    right column (from the bottom). *)
Theorem init_finder_pattern (m : list (list Z)) (n : nat) (R : Z) :
  (0 < n)%nat -> square n m -> 1 <= R -> Z.of_nat n mod R = 0 ->
  let size := Z.of_nat n / R in
  let side := Z.of_nat n + 2 * R in
  exists r,
    init m R = Ok r /\
    forall x y, 0 <= x < side -> 0 <= y < side ->
      border_cell size (x, y) = true ->
      cell_at (matrix r) (x, y)
      = Some (if handle_cell size (x, y) then 1 else 0).
Proof.
  intros Hn Hm HR Hmod size side.
  destruct (init_cells m n R Hn Hm HR Hmod) as (r & Hinit & Hcells).
  exists r. split; [done|]. intros x y Hx Hy Hb.
  rewrite (Hcells x y Hx Hy). fold size. by rewrite Hb.
Qed.

(** The finder pattern around the 2x2 grid of zeros with one region. *)
Lemma init_finder_pattern_witness :
  exists r, init (zeros 2 2) 1 = Ok r /\
            cell_at (matrix r) (2, 3) = Some 1 /\
            cell_at (matrix r) (3, 2) = Some 0.
Proof.
  destruct (init_finder_pattern (zeros 2 2) 2 1) as (r & Hinit & Hcells).
  - lia.
  - by_decide.
  - lia.
  - reflexivity.
  - exists r. split; [exact Hinit|]. split.
    + exact (Hcells 2 3 ltac:(simpl; lia) ltac:(simpl; lia) eq_refl).
    + exact (Hcells 3 2 ltac:(simpl; lia) ltac:(simpl; lia) eq_refl).
Defined.

(** The payload is kept.  After the construction of a valid grid, a cell
    that was not inserted holds the cell of the input grid at its source
    position: the handles are stamped on inserted cells only. *)
Theorem init_payload (m : list (list Z)) (n : nat) (R : Z) :
  (0 < n)%nat -> square n m -> 1 <= R -> Z.of_nat n mod R = 0 ->
  let size := Z.of_nat n / R in
  let side := Z.of_nat n + 2 * R in
  exists r,
    init m R = Ok r /\
    forall x y, 0 <= x < side -> 0 <= y < side ->
      border_cell size (x, y) = false ->
      cell_at (matrix r) (x, y)
      = cell_at m (source_index size x, source_index size y).
Proof.
  intros Hn Hm HR Hmod size side.
  destruct (init_cells m n R Hn Hm HR Hmod) as (r & Hinit & Hcells).
  exists r. split; [done|]. intros x y Hx Hy Hb.
  rewrite (Hcells x y Hx Hy). fold size. by rewrite Hb.
Qed.

(** The payload of the grid [[1; 0]; [0; 1]] with one region. *)
Lemma init_payload_witness :
  exists r, init [[1; 0]; [0; 1]] 1 = Ok r /\
            cell_at (matrix r) (1, 1) = Some 1 /\
            cell_at (matrix r) (2, 1) = Some 0.
Proof.
  destruct (init_payload [[1; 0]; [0; 1]] 2 1) as (r & Hinit & Hcells).
  - lia.
  - by_decide.
  - lia.
  - reflexivity.
  - exists r. split; [exact Hinit|]. split.
    + exact (Hcells 1 1 ltac:(simpl; lia) ltac:(simpl; lia) eq_refl).
    + exact (Hcells 2 1 ltac:(simpl; lia) ltac:(simpl; lia) eq_refl).
Defined.

Lemma dest_index_block (size i : Z) :
  1 <= size -> 0 <= i ->
  dest_index size i = (i / size) * (size + 2) + (i mod size + 1).
Proof.
  intros Hs Hi. unfold dest_index.
  pose proof (Z.div_mod i size ltac:(lia)). lia.
Qed.

Lemma dest_index_mod (size i : Z) :
  1 <= size -> 0 <= i -> dest_index size i mod (size + 2) = i mod size + 1.
Proof.
  intros Hs Hi. rewrite dest_index_block by done.
  pose proof (Z.mod_pos_bound i size ltac:(lia)).
  apply mod_offset. lia.
Qed.

Lemma dest_index_div (size i : Z) :
  1 <= size -> 0 <= i -> dest_index size i / (size + 2) = i / size.
Proof.
  intros Hs Hi. rewrite dest_index_block by done.
  pose proof (Z.mod_pos_bound i size ltac:(lia)).
  symmetry. apply (Z.div_unique _ _ _ (i mod size + 1)); lia.
Qed.

Lemma dest_index_source (size i : Z) :
  1 <= size -> 0 <= i ->
  gap_index size (dest_index size i) = false /\
  source_index size (dest_index size i) = i.
Proof.
  intros Hs Hi. unfold gap_index, source_index.
  rewrite dest_index_mod, dest_index_div by done.
  pose proof (Z.mod_pos_bound i size ltac:(lia)).
  pose proof (Z.div_mod i size ltac:(lia)).
  split; [|lia].
  apply orb_false_iff. split; apply Z.eqb_neq; lia.
Qed.

(** No cell of the input is lost.  After the construction of a valid grid,
    the input cell at column [i] of row [j] is found at column
    [i + 1 + 2*(i // region_size)] of row [j + 1 + 2*(j // region_size)]. *)
Theorem init_payload_position (m : list (list Z)) (n : nat) (R : Z) :
  (0 < n)%nat -> square n m -> 1 <= R -> Z.of_nat n mod R = 0 ->
  let size := Z.of_nat n / R in
  exists r,
    init m R = Ok r /\
    forall i j, 0 <= i < Z.of_nat n -> 0 <= j < Z.of_nat n ->
      cell_at (matrix r) (dest_index size i, dest_index size j)
      = cell_at m (i, j).
Proof.
  intros Hn Hm HR Hmod size.
  destruct (valid_layout n R Hn HR Hmod) as (Hcs & Hc & Hs & HcR & HsR).
  destruct (init_cells m n R Hn Hm HR Hmod) as (r & Hinit & Hcells).
  exists r. split; [done|]. intros i j Hi Hj.
  assert (1 <= size) as Hsize by (subst size; lia).
  assert (Z.of_nat n = R * size) as Hexact
    by (subst size; apply Z_div_exact_full_2; lia).
  assert (forall k, 0 <= k < Z.of_nat n ->
                    0 <= dest_index size k < Z.of_nat n + 2 * R) as Hdest.
  { intros k Hk. unfold dest_index.
    assert (0 <= k / size) by (apply Z.div_pos; lia).
    assert (k / size < R) by (apply Z.div_lt_upper_bound; lia). lia. }
  rewrite (Hcells _ _ (Hdest i Hi) (Hdest j Hj)). fold size.
  destruct (dest_index_source size i Hsize ltac:(lia)) as [Hgi Hsi].
  destruct (dest_index_source size j Hsize ltac:(lia)) as [Hgj Hsj].
  unfold border_cell. cbn [fst snd]. by rewrite Hgi, Hgj, Hsi, Hsj.
Qed.

(** The input cell (2, 3) of a 4x4 grid with two regions is found at
    (5, 6). *)
Lemma init_payload_position_witness :
  exists r,
    init [[0; 0; 0; 0]; [0; 0; 0; 0]; [0; 0; 0; 0]; [0; 0; 1; 0]] 2 = Ok r /\
    cell_at (matrix r) (5, 6) = Some 1.
Proof.
  destruct (init_payload_position
              [[0; 0; 0; 0]; [0; 0; 0; 0]; [0; 0; 0; 0]; [0; 0; 1; 0]] 4 2)
    as (r & Hinit & Hcells).
  - lia.
  - by_decide.
  - lia.
  - reflexivity.
  - exists r. split; [exact Hinit|].
    exact (Hcells 2 3 ltac:(simpl; lia) ltac:(simpl; lia)).
Defined.

(** ** [put_cell]: bounds, negative positions, the other cells *)

Lemma index_wrap (n : nat) (i : Z) :
  - Z.of_nat n <= i < Z.of_nat n -> index n i = Ok (Z.to_nat (wrap n i)).
Proof.
  intros H. unfold index, wrap.
  destruct (Z.ltb_spec i 0).
  - destruct (Z.leb_spec 0 i); [lia|].
    destruct (Z.leb_spec (- Z.of_nat n) i); [|lia].
    cbn [andb]. by rewrite (Z.add_comm i).
  - destruct (Z.leb_spec 0 i); [|lia].
    destruct (Z.ltb_spec i (Z.of_nat n)); [|lia]. done.
Qed.

Lemma index_out (n : nat) (i : Z) :
  ~ (- Z.of_nat n <= i < Z.of_nat n) -> index n i = Raise IndexError.
Proof.
  intros H. unfold index.
  replace ((0 <=? i) && (i <? Z.of_nat n)) with false
    by (symmetry; apply andb_false_iff; lia).
  by replace ((- Z.of_nat n <=? i) && (i <? 0)) with false
    by (symmetry; apply andb_false_iff; lia).
Qed.

Lemma put_cell_matrix_wrap (m : list (list Z)) (w h : nat) (x y c : Z) :
  rect w h m ->
  - Z.of_nat w <= x < Z.of_nat w -> - Z.of_nat h <= y < Z.of_nat h ->
  put_cell_matrix (x, y) c m = put_cell_matrix (wrap w x, wrap h y) c m.
Proof.
  intros [Hh Hw] Hx Hy. unfold put_cell_matrix, getitem, setitem.
  rewrite Hh. rewrite (index_wrap h y Hy).
  rewrite (index_nonneg h (wrap h y)) by (unfold wrap; destruct (y <? 0) eqn:E;
    [apply Z.ltb_lt in E|apply Z.ltb_ge in E]; lia).
  cbn [bind]. destruct (m !! Z.to_nat (wrap h y)) as [row|] eqn:Hrow; [|done].
  cbn [bind].
  assert (length row = w) as ->.
  { rewrite Forall_forall in Hw. apply Hw. apply list_elem_of_lookup. eauto. }
  rewrite (index_wrap w x Hx).
  by rewrite (index_nonneg w (wrap w x)) by (unfold wrap; destruct (x <? 0) eqn:E;
    [apply Z.ltb_lt in E|apply Z.ltb_ge in E]; lia).
Qed.

Lemma put_cell_matrix_out (m : list (list Z)) (w h : nat) (x y c : Z) :
  rect w h m ->
  ~ (- Z.of_nat w <= x < Z.of_nat w /\ - Z.of_nat h <= y < Z.of_nat h) ->
  put_cell_matrix (x, y) c m = Raise IndexError.
Proof.
  intros [Hh Hw] Hout. unfold put_cell_matrix, getitem, setitem. rewrite Hh.
  destruct (decide (- Z.of_nat h <= y < Z.of_nat h)) as [Hy|Hy].
  - rewrite (index_wrap h y Hy). cbn [bind].
    destruct (m !! Z.to_nat (wrap h y)) as [row|] eqn:Hrow; [|done].
    cbn [bind].
    assert (length row = w) as ->.
    { rewrite Forall_forall in Hw. apply Hw. apply list_elem_of_lookup. eauto. }
    rewrite index_out by lia. done.
  - by rewrite index_out.
Qed.

(** [put_cell] on a grid of [h] rows of [w] cells.  A position with
    [-w <= posx < w] and [-h <= posy < h] is written, a negative coordinate
    counting from the end: the fields and the dimensions are kept, the cell
    holds the colour and every other cell is unchanged.  Any other position
    raises [IndexError]. *)
Theorem put_cell_contract (self : Renderer) (w h : nat) (x y c : Z) :
  rect w h (matrix self) ->
  (- Z.of_nat w <= x < Z.of_nat w /\ - Z.of_nat h <= y < Z.of_nat h ->
   exists m',
     put_cell self (x, y) c = Ok (set_matrix self m') /\
     rect w h m' /\
     forall q, cell_at m' q
               = if decide (q = (wrap w x, wrap h y)) then Some c
                 else cell_at (matrix self) q) /\
  (~ (- Z.of_nat w <= x < Z.of_nat w /\ - Z.of_nat h <= y < Z.of_nat h) ->
   put_cell self (x, y) c = Raise IndexError).
Proof.
  intros Hrect. split.
  - intros [Hx Hy].
    destruct (put_cell_in_grid (matrix self) w h (wrap w x, wrap h y) c Hrect)
      as (m' & Hput & Hrect' & Hcells).
    { unfold in_grid, wrap. cbn [fst snd].
      destruct (x <? 0) eqn:Ex; destruct (y <? 0) eqn:Ey;
        rewrite ?Z.ltb_lt, ?Z.ltb_ge in *; lia. }
    exists m'. split; [|done]. unfold put_cell.
    by rewrite (put_cell_matrix_wrap _ w h), Hput.
  - intros Hout. unfold put_cell.
    by rewrite (put_cell_matrix_out _ w h).
Qed.

(** [put_cell] at (-1, -1) of a 2x2 grid writes the last cell of the last
    row, and at (2, 0) it raises. *)
Lemma put_cell_contract_witness :
  (exists m', put_cell (grid (zeros 2 2)) (-1, -1) 1
              = Ok (set_matrix (grid (zeros 2 2)) m') /\
              cell_at m' (1, 1) = Some 1 /\ cell_at m' (0, 1) = Some 0) /\
  put_cell (grid (zeros 2 2)) (2, 0) 1 = Raise IndexError.
Proof.
  assert (rect 2 2 (matrix (grid (zeros 2 2)))) as Hrect
    by (split; [reflexivity|repeat constructor]).
  split.
  - destruct (put_cell_contract (grid (zeros 2 2)) 2 2 (-1) (-1) 1 Hrect)
      as [Hin _].
    destruct Hin as (m' & Hput & _ & Hcells); [lia|].
    exists m'. split; [exact Hput|]. split.
    + exact (Hcells (1, 1)).
    + exact (Hcells (0, 1)).
  - apply (put_cell_contract (grid (zeros 2 2)) 2 2 2 0 1 Hrect). lia.
Defined.

(** ** What [add_handles] keeps *)

Lemma put_cell_shape (p : Z * Z) (c : Z) (m m' : list (list Z)) :
  put_cell_matrix p c m = Ok m' -> map length m' = map length m.
Proof.
  destruct p as [x y]. intros H.
  apply put_cell_matrix_inv in H as (ky & kx & row & Hy & Hrow & Hx & ->).
  rewrite list_fmap_insert, length_insert. apply list_insert_id.
  by rewrite list_lookup_fmap, Hrow.
Qed.

Lemma put_cell_other (p q : Z * Z) (c v : Z) (m m' : list (list Z)) :
  put_cell_matrix p c m = Ok m' -> read m q = Ok v ->
  read m' q = Ok v \/ read m' q = Ok c.
Proof.
  destruct p as [x y], q as [x' y']. intros H Hq.
  apply put_cell_matrix_inv in H as (ky & kx & row & Hy & Hrow & Hx & ->).
  apply read_inv in Hq as (ky' & kx' & row' & Hy' & Hrow' & Hx' & Hv').
  rewrite !read_inv. rewrite length_insert.
  pose proof (index_lt _ _ _ Hy). pose proof (index_lt _ _ _ Hx).
  destruct (decide (ky = ky')) as [<-|Hne].
  - assert (row' = row) as -> by congruence.
    destruct (decide (kx = kx')) as [<-|Hne'].
    + right. exists ky, kx, (<[kx := c]> row). rewrite length_insert.
      split; [done|]. split; [by apply list_lookup_insert_eq|].
      split; [done|]. by apply list_lookup_insert_eq.
    + left. exists ky, kx', (<[kx := c]> row). rewrite length_insert.
      split; [done|]. split; [by apply list_lookup_insert_eq|].
      split; [done|]. by rewrite list_lookup_insert_ne.
  - left. exists ky', kx', row'. split; [done|].
    split; [by rewrite list_lookup_insert_ne|]. done.
Qed.

Lemma stamp_matrix_shape (ps : list (Z * Z)) (m m' : list (list Z)) :
  stamp_matrix ps m = Ok m' -> map length m' = map length m.
Proof.
  unfold stamp_matrix. revert m. induction ps as [|p ps IH]; intros m H.
  - by injection H as <-.
  - simpl in H. destruct (put_cell_matrix p 1 m) as [m1|] eqn:E; [|done].
    simpl in H. rewrite (IH _ H). by apply (put_cell_shape p 1).
Qed.

Lemma stamp_matrix_other (ps : list (Z * Z)) (q : Z * Z) (v : Z)
  (m m' : list (list Z)) :
  stamp_matrix ps m = Ok m' -> read m q = Ok v ->
  read m' q = Ok v \/ read m' q = Ok 1.
Proof.
  unfold stamp_matrix. revert m v. induction ps as [|p ps IH]; intros m v H Hq.
  - injection H as <-. by left.
  - simpl in H. destruct (put_cell_matrix p 1 m) as [m1|] eqn:E; [|done].
    simpl in H.
    destruct (put_cell_other _ _ _ _ _ _ E Hq) as [Hq1|Hq1].
    + by apply (IH m1 v).
    + destruct (IH m1 1 H Hq1) as [?|?]; by right.
Qed.

(** [add_handles] only sets cells to 1.  When it returns, the fields and
    the length of every row are those of the renderer it was given, and a
    cell that could be read holds the value it held or 1. *)
Theorem add_handles_keeps (self stamped : Renderer) :
  add_handles self = Ok stamped ->
  stamped = set_matrix self (matrix stamped) /\
  map length (matrix stamped) = map length (matrix self) /\
  forall q v, read (matrix self) q = Ok v ->
              read (matrix stamped) q = Ok v \/ read (matrix stamped) q = Ok 1.
Proof.
  rewrite add_handles_stamp, stamp_eq. intros H.
  destruct (stamp_matrix (handle_cells self) (matrix self)) as [m|] eqn:E;
    [|done].
  injection H as <-. cbn [matrix set_matrix]. split; [done|].
  split; [by apply (stamp_matrix_shape _ _ _ E)|].
  intros q v. by apply (stamp_matrix_other _ _ _ _ _ E).
Qed.

(** At the bordered 2x2 grid [[1; 0]; [0; 1]] with one region, the cell
    (1, 1), which held 1, still holds 1. *)
Lemma add_handles_keeps_witness :
  exists stamped,
    add_handles (mkRenderer 4 4 1 2 0
                   [[0;0;0;0]; [0;1;0;0]; [0;0;1;0]; [0;0;0;0]]) = Ok stamped /\
    (read (matrix stamped) (1, 1) = Ok 1 \/ read (matrix stamped) (1, 1) = Ok 1).
Proof.
  eexists. split; [vm_compute; reflexivity|].
  refine (proj2 (proj2 (add_handles_keeps
            (mkRenderer 4 4 1 2 0
               [[0;0;0;0]; [0;1;0;0]; [0;0;1;0]; [0;0;0;0]]) _ _)) (1, 1) 1 _).
  - vm_compute. reflexivity.
  - vm_compute. reflexivity.
Defined.

(** ** Errors of the constructor *)

(** The constructor reads the first row before it divides, and tests the
    seam of every row but the first with [row_n % region_size].  On the empty
    matrix it raises [IndexError] whatever [regions] is; when [regions]
    exceeds the number of rows and there are at least two rows, the region
    size is 0 and the seam test of the second row raises
    [ZeroDivisionError]. *)
Theorem init_too_many_regions (m : list (list Z)) (R : Z) :
  (m = [] -> init m R = Raise IndexError) /\
  ((2 <= length m)%nat -> len m < R -> init m R = Raise ZeroDivisionError).
Proof.
  split; [by intros ->|].
  intros Hlen HR. destruct m as [|row0 [|row1 rest]]; [simpl in Hlen; lia..|].
  unfold init. rewrite getitem_head. cbn [bind].
  unfold floordiv. destruct (Z.eqb_spec R 0) as [|_]; [unfold len in HR; lia|].
  cbn [bind]. rewrite (Z.div_small (len (row0 :: row1 :: rest)) R)
    by (unfold len in *; lia).
  unfold add_border. cbv zeta. cbn [matrix region_size].
  rewrite enumerate_enum_from, !enum_from_cons. cbn [for_].
  change (0 <? Z.of_nat 0) with false. cbn [bind].
  change (0 <? Z.of_nat 1) with true. unfold mod_ at 1.
  change (0 =? 0) with true. reflexivity.
Qed.

(** Three regions asked of a 2x2 grid. *)
Lemma init_too_many_regions_witness :
  init (zeros 2 2) 3 = Raise ZeroDivisionError.
Proof.
  apply (init_too_many_regions (zeros 2 2) 3); [simpl; lia|].
  unfold len. simpl. lia.
Defined.

(** ** The two DXF documents of a grid *)

Lemma enumerate_snd {A} (l : list A) : (enumerate l).*2 = l.
Proof.
  unfold enumerate. apply (snd_zip (range (len l)) l).
  rewrite length_range. unfold len. lia.
Qed.

Lemma split_cells_row (y : Z) (inverse : bool) (cells : list (Z * Z)) :
  (length (flat_map (fun '(x, val) =>
                       if foreground val inverse then [(x, y)] else []) cells)
   + length (flat_map (fun '(x, val) =>
                         if foreground val (negb inverse) then [(x, y)] else [])
                      cells))%nat
  = length cells.
Proof.
  induction cells as [|[x val] cells IH]; [done|].
  cbn [flat_map]. rewrite !length_app. unfold foreground in *.
  destruct (bool_ val), inverse; simpl in *; lia.
Qed.

Lemma split_cells (inverse : bool) (rows : list (Z * list Z)) :
  (length (flat_map (fun '(y, row) =>
             flat_map (fun '(x, val) =>
                         if foreground val inverse then [(x, y)] else [])
                      (enumerate row)) rows)
   + length (flat_map (fun '(y, row) =>
               flat_map (fun '(x, val) =>
                           if foreground val (negb inverse) then [(x, y)] else [])
                        (enumerate row)) rows))%nat
  = length (concat rows.*2).
Proof.
  induction rows as [|[y row] rows IH]; [done|].
  cbn [flat_map fmap list_fmap concat snd]. rewrite !length_app.
  pose proof (split_cells_row y inverse (enumerate row)) as H.
  rewrite length_enumerate in H. simpl in *. lia.
Qed.

(** Every cell is drawn in exactly one of the two documents: the numbers of
    SOLID entities of [get_dxf] without and with [inverse] add up to the
    number of cells of the grid. *)
Theorem get_dxf_counts_add_up (self : Renderer) (cellsize cellsize' : Z)
  (units units' : string) :
  (dxf_entity_count (get_dxf self cellsize false units)
   + dxf_entity_count (get_dxf self cellsize' true units'))%nat
  = length (concat (matrix self)).
Proof.
  rewrite !get_dxf_count. unfold foreground_cells.
  rewrite <- (enumerate_snd (matrix self)) at 3.
  apply (split_cells false).
Qed.

(** ** The raster buffer, pixel by pixel *)

Lemma lookup_rev {A} (l : list A) (i : nat) :
  (i < length l)%nat -> rev l !! i = l !! (length l - S i)%nat.
Proof. intros H. rewrite rev_alt. by apply reverse_lookup. Qed.

Lemma pixel_index (w c px py : nat) :
  (px < w * c)%nat -> (0 < c)%nat ->
  ((py * (w * c) + px) / (c * (w * c)) = py / c
   /\ (py * (w * c) + px) mod (c * (w * c)) = (py mod c) * (w * c) + px)%nat.
Proof.
  intros Hpx Hc.
  pose proof (Nat.div_mod_eq py c) as Hpy.
  pose proof (Nat.mod_upper_bound py c ltac:(lia)) as Hr.
  assert (py * (w * c) + px
          = c * (w * c) * (py / c) + (py mod c * (w * c) + px))%nat as Heq by nia.
  assert (py mod c * (w * c) + px < c * (w * c))%nat as Hlt by nia.
  split.
  - symmetry. by apply (Nat.div_unique _ _ _ (py mod c * (w * c) + px)).
  - symmetry. by apply (Nat.mod_unique _ _ (py / c)).
Qed.

Lemma lookup_pixel_line (c : nat) (row : list Z) (px : nat) :
  (0 < c)%nat ->
  pixel_line (Z.of_nat c) row !! px = byte_of <$> row !! (px / c)%nat.
Proof.
  intros Hc. unfold pixel_line. rewrite Nat2Z.id, flat_map_concat_map.
  rewrite (lookup_concat_uniform _ c); [|done|].
  - rewrite list_lookup_fmap. destruct (row !! (px / c)%nat) as [cell|]; [|done].
    simpl. apply lookup_repeat. by apply Nat.mod_upper_bound, Nat.neq_0_lt_0.
  - apply Forall_map, Forall_forall. intros cell _. apply repeat_length.
Qed.

Lemma lookup_pixel_block (c : nat) (row : list Z) (i : nat) :
  (0 < c)%nat -> (0 < length row)%nat -> (i < c * (length row * c))%nat ->
  pixel_block (Z.of_nat c) row !! i
  = pixel_line (Z.of_nat c) row !! (i mod (length row * c))%nat.
Proof.
  intros Hc Hrow Hi. unfold pixel_block. rewrite Nat2Z.id.
  rewrite (lookup_concat_uniform _ (length row * c)); [|nia|].
  - rewrite lookup_repeat; [done|].
    apply Nat.Div0.div_lt_upper_bound. lia.
  - apply Forall_forall. intros l Hl. apply list_elem_of_In, repeat_spec in Hl.
    subst l. rewrite length_pixel_line. by rewrite Nat2Z.id.
Qed.

(** One pixel of the buffer.  For a grid of [h] rows of [w] cells, all 0 or
    1, and a cell size [c >= 1], the byte at column [px] of pixel line [py]
    of the buffer (lines of [w*c] bytes, counted from the start of the
    buffer) is the byte of the cell at column [px // c] of row
    [h - 1 - py // c]: the grid is drawn upside down, every cell as a block
    of [c] by [c] pixels. *)
Theorem get_buffer_pixel (self : Renderer) (w h c px py : nat) :
  binary (matrix self) -> rect w h (matrix self) -> (0 < c)%nat ->
  (px < w * c)%nat -> (py < h * c)%nat ->
  exists buf row cell,
    get_buffer self (Z.of_nat c) = Ok buf /\
    matrix self !! (h - 1 - py / c)%nat = Some row /\
    row !! (px / c)%nat = Some cell /\
    buf !! (py * (w * c) + px)%nat = Some (byte_of cell).
Proof.
  intros Hbin [Hh Hw] Hc Hpx Hpy.
  assert (py / c < h)%nat as Hq by (apply Nat.Div0.div_lt_upper_bound; lia).
  assert (px / c < w)%nat as Hqx by (apply Nat.Div0.div_lt_upper_bound; lia).
  destruct (lookup_lt_is_Some_2 (matrix self) (h - 1 - py / c)) as [row Hrow];
    [lia|].
  assert (length row = w) as Hlen.
  { rewrite Forall_forall in Hw. apply Hw. apply list_elem_of_lookup. eauto. }
  destruct (lookup_lt_is_Some_2 row (px / c)) as [cell Hcell]; [lia|].
  eexists _, row, cell. split; [by apply get_buffer_ok|].
  split; [done|]. split; [done|].
  destruct (pixel_index w c px py Hpx Hc) as [Hdiv Hmod].
  rewrite (lookup_concat_uniform _ (c * (w * c))); [|nia|].
  - rewrite Hdiv, list_lookup_fmap, lookup_rev by lia.
    replace (length (matrix self) - S (py / c))%nat with (h - 1 - py / c)%nat
      by lia.
    rewrite Hrow. simpl.
    pose proof (Nat.mod_upper_bound py c ltac:(lia)) as Hr.
    rewrite lookup_pixel_block by (rewrite ?Hlen; nia || lia).
    rewrite Hmod, Hlen.
    replace ((py mod c * (w * c) + px) mod (w * c))%nat with px.
    + by rewrite lookup_pixel_line, Hcell.
    + symmetry. rewrite Nat.add_comm, Nat.Div0.mod_add.
      by apply Nat.mod_small.
  - apply Forall_map, Forall_rev. eapply Forall_impl; [exact Hw|].
    intros r Hr. simpl. rewrite length_pixel_block, Nat2Z.id. by rewrite Hr.
Qed.

(** The pixel (3, 0) of [[0; 1]; [1; 1]] at cell size 2 shows the cell
    (1, 1). *)
Lemma get_buffer_pixel_witness :
  exists buf, get_buffer (grid [[0; 1]; [1; 1]]) 2 = Ok buf /\
              buf !! 3%nat = Some x00.
Proof.
  destruct (get_buffer_pixel (grid [[0; 1]; [1; 1]]) 2 2 2 3 0)
    as (buf & row & cell & Hbuf & Hrow & Hcell & Hpix).
  - by_decide.
  - split; [reflexivity|repeat constructor].
  - lia.
  - lia.
  - lia.
  - exists buf. split; [exact Hbuf|].
    cbv in Hrow. injection Hrow as <-. cbv in Hcell. injection Hcell as <-.
    exact Hpix.
Defined.

(** ** A grid wider than it is high *)

Lemma chunks_take {A} (size count n : nat) (l : list A) :
  (count * size <= n)%nat ->
  chunks size count (take n l) = chunks size count l.
Proof.
  intros Hn. unfold chunks. apply map_ext_in. intros j Hj.
  apply in_seq in Hj. apply list_eq. intros i.
  destruct (decide (i < size)%nat) as [Hi|Hi].
  - rewrite !lookup_take_lt, !lookup_drop by done.
    apply lookup_take_lt. nia.
  - by rewrite !lookup_take_ge by lia.
Qed.

Lemma bordered_take (colour : Z) (count size n : nat) (m : list (list Z)) :
  (count * size <= n)%nat ->
  bordered colour count size (map (take n) m) = bordered colour count size m.
Proof.
  intros Hn. unfold bordered. f_equal. rewrite map_map.
  apply map_ext. intros row. unfold frames. by rewrite chunks_take.
Qed.

Lemma add_border_wide (m : list (list Z)) (colour height0 : Z)
  (count size : nat) :
  (1 <= count)%nat -> (1 <= size)%nat -> length m = (count * size)%nat ->
  Forall (fun row => (count * size <= length row)%nat) m ->
  add_border (mkRenderer (Z.of_nat (count * size)) height0
                (Z.of_nat count) (Z.of_nat size) 0 m) colour
  = Ok (mkRenderer (Z.of_nat (count * (size + 2)))
          (height0 + 2 * Z.of_nat count)
          (Z.of_nat count) (Z.of_nat size) 0
          (bordered colour count size m)).
Proof.
  intros Hcount Hsize Hlen Hrows.
  set (self := mkRenderer _ _ _ _ _ _).
  rewrite add_border_ok by (simpl; lia).
  assert (grown self (Z.of_nat (count * size)) = Z.of_nat (count * (size + 2)))
    as Hgrown by (unfold grown; simpl; lia).
  assert (grown self height0 = height0 + 2 * Z.of_nat count)
    as Hgrown' by (unfold grown; simpl; lia).
  assert (blank_row self colour = repeat colour (count * (size + 2))) as Hblank.
  { unfold blank_row. cbn [width self]. rewrite Hgrown, mul_singleton.
    by rewrite Nat2Z.id. }
  cbn [width height regions region_size quiet_zone matrix self].
  fold self. rewrite Hgrown, Hgrown'. do 2 f_equal.
  change (Z.to_nat (1 + 0)) with 1%nat. cbn [repeat].
  rewrite (border_matrix_chunks self colour count size) by done.
  unfold bordered, frames at 1. rewrite chunks_map, map_map.
  f_equal. apply map_ext_in. intros block Hblock.
  unfold frame_block. rewrite Hblank. do 2 f_equal.
  apply map_ext_in. intros row Hrow.
  apply (border_row_chunks self colour count size); try done.
  rewrite Forall_forall in Hrows. apply Hrows.
  apply (elem_of_chunks size count m block); by apply list_elem_of_In.
Qed.

Lemma handle_cells_fields (self self' : Renderer) :
  regions self = regions self' /\ region_size self = region_size self' /\
  quiet_zone self = quiet_zone self' ->
  handle_cells self = handle_cells self'.
Proof. intros (HR & Hs & Hq). unfold handle_cells. by rewrite HR, Hs, Hq. Qed.

Lemma init_unfold (row0 : list Z) (rest : list (list Z)) (R : Z) :
  R <> 0 ->
  init (row0 :: rest) R
  = let! b := add_border (mkRenderer (len (row0 :: rest)) (len row0) R
                            (len (row0 :: rest) / R) 0 (row0 :: rest)) 0 in
    add_handles b.
Proof.
  intros HR. unfold init. rewrite getitem_head. cbn [bind].
  unfold floordiv. by destruct (Z.eqb_spec R 0).
Qed.

(** The region size is computed from the number of rows and is used to cut
    the rows.  For a grid of [h >= 1] rows, each of at least [h] cells, and
    [regions >= 1] dividing [h], construction succeeds and gives the matrix
    and the width of the square grid made of the first [h] cells of every
    row: the cells beyond column [h] are dropped, and the [height] field is
    the length of the first row plus [2*regions]. *)
Theorem init_drops_extra_columns (m : list (list Z)) (row0 : list Z) (R : Z) :
  m !! 0%nat = Some row0 ->
  Forall (fun row => (length m <= length row)%nat) m ->
  1 <= R -> len m mod R = 0 ->
  exists r r',
    init m R = Ok r /\
    init (map (take (length m)) m) R = Ok r' /\
    matrix r = matrix r' /\ width r = width r' /\
    height r = len row0 + 2 * R.
Proof.
  intros Hrow0 Hrows HR Hmod.
  set (h := length m) in *.
  assert (0 < h)%nat as Hh by (subst h; destruct m; [done|simpl; lia]).
  destruct (valid_layout h R Hh HR Hmod) as (Hcs & Hc & Hs & HcR & HsR).
  set (cnt := Z.to_nat R) in *. set (sz := Z.to_nat (Z.of_nat h / R)) in *.
  assert (square h (map (take h) m)) as Hsq.
  { split; [by rewrite length_map|].
    apply Forall_map. eapply Forall_impl; [exact Hrows|].
    intros row Hrow. simpl in *. rewrite length_take. lia. }
  destruct (init_valid _ h R Hh Hsq HR Hmod) as (m' & Hinit' & Hadd & _ & _).
  fold cnt sz in Hinit', Hadd. rewrite bordered_take in Hinit', Hadd by lia.
  rewrite add_handles_stamp, stamp_eq in Hadd. cbn [matrix] in Hadd.
  destruct (stamp_matrix _ (bordered 0 cnt sz m)) as [m1|] eqn:Hst; [|done].
  injection Hadd as <-.
  exists (mkRenderer (Z.of_nat (cnt * (sz + 2))) (len row0 + 2 * Z.of_nat cnt)
            (Z.of_nat cnt) (Z.of_nat sz) 0 m1).
  eexists. split; [|split; [exact Hinit'|]].
  - destruct m as [|row0' rest]; [done|]. injection Hrow0 as ->.
    rewrite init_unfold by lia. fold h.
    assert (mkRenderer (len (row0 :: rest)) (len row0) R
              (len (row0 :: rest) / R) 0 (row0 :: rest)
            = mkRenderer (Z.of_nat (cnt * sz)) (len row0)
                (Z.of_nat cnt) (Z.of_nat sz) 0 (row0 :: rest)) as ->.
    { unfold len. fold h. by rewrite HcR, HsR, <- Hcs. }
    rewrite add_border_wide; [|done|done|by rewrite <- Hcs|by rewrite <- Hcs].
    cbn [bind]. rewrite add_handles_stamp, stamp_eq. cbn [matrix].
    rewrite (handle_cells_fields _
               (mkRenderer (Z.of_nat (cnt * (sz + 2))) (Z.of_nat (cnt * (sz + 2)))
                  R (Z.of_nat h / R) 0 (bordered 0 cnt sz (row0 :: rest))))
      by (cbn [regions region_size quiet_zone]; by rewrite HcR, HsR).
    rewrite Hst. reflexivity.
  - cbn [matrix width height set_matrix]. split; [done|]. split; [done|]. lia.
Qed.

(** A 2x4 grid with one region: the columns 2 and 3 are dropped. *)
Lemma init_drops_extra_columns_witness :
  exists r r',
    init [[1; 2; 3; 4]; [5; 6; 7; 8]] 1 = Ok r /\
    init [[1; 2]; [5; 6]] 1 = Ok r' /\
    matrix r = matrix r' /\ width r = width r' /\ height r = 6.
Proof.
  destruct (init_drops_extra_columns [[1; 2; 3; 4]; [5; 6; 7; 8]] [1; 2; 3; 4] 1)
    as (r & r' & H1 & H2 & H3 & H4 & H5).
  - reflexivity.
  - repeat constructor.
  - lia.
  - reflexivity.
  - exists r, r'. repeat split; assumption.
Defined.

(** ** [repr_matrix] *)

Lemma one_line_join (sep : string) (items : list string) :
  one_line sep = true -> Forall (fun s => one_line s = true) items ->
  one_line (join_str sep items) = true.
Proof.
  intros Hsep. unfold join_str. induction 1 as [|s items Hs _ IH]; [done|].
  cbn [String.concat]. destruct items as [|s' items]; [done|].
  apply one_line_app; [done|]. by apply one_line_app.
Qed.

Lemma repr_list_one_line (row : list Z) : one_line (repr_list row) = true.
Proof.
  unfold repr_list. apply one_line_app; [done|]. apply one_line_app; [|done].
  apply one_line_join; [done|]. apply Forall_map, Forall_forall.
  intros n _. apply str_one_line.
Qed.

Lemma text_lines_one_line (s : string) :
  one_line s = true -> text_lines s = [s].
Proof.
  induction s as [|c s IH]; [done|]. simpl. intros H.
  apply andb_true_iff in H as [Hc Hs]. apply negb_true_iff in Hc.
  by rewrite Hc, (IH Hs).
Qed.

Lemma text_lines_join (rows : list string) :
  rows <> [] -> Forall (fun s => one_line s = true) rows ->
  text_lines (join_str (lit "\n") rows) = rows.
Proof.
  unfold join_str. change (lit "\n") with (String LF "").
  intros Hne H. induction H as [|r rows Hr Hrows IH]; [done|].
  cbn [String.concat]. destruct rows as [|r' rows].
  - by apply text_lines_one_line.
  - rewrite str_app_cons, str_app_nil_l.
    rewrite (text_lines_line _ _ Hr). f_equal. by apply IH.
Qed.

(** [repr_matrix] prints one line per row, each the [repr] of the row, with
    no line feed after the last; the empty matrix prints as the empty
    string. *)
Theorem repr_matrix_lines (m : list (list Z)) :
  (m <> [] -> text_lines (repr_matrix m) = map repr_list m) /\
  (m = [] -> repr_matrix m = ""%string) /\
  Forall (fun line => one_line line = true) (map repr_list m).
Proof.
  split; [|split].
  - intros Hne. apply text_lines_join.
    + by destruct m.
    + apply Forall_map, Forall_forall. intros row _. apply repr_list_one_line.
  - by intros ->.
  - apply Forall_map, Forall_forall. intros row _. apply repr_list_one_line.
Qed.

(** [repr_matrix] of [[1; 0]; [0; -1]]. *)
Lemma repr_matrix_lines_witness :
  text_lines (repr_matrix [[1; 0]; [0; -1]]) = ["[1, 0]"; "[0, -1]"]%string.
Proof.
  exact (proj1 (repr_matrix_lines [[1; 0]; [0; -1]]) ltac:(discriminate)).
Defined.

(** ** The rows of [add_border] for any region size *)

Lemma div_step (rs k : Z) :
  1 <= rs -> 1 <= k ->
  k / rs = (k - 1) / rs + (if k mod rs =? 0 then 1 else 0).
Proof.
  intros Hrs Hk.
  pose proof (Z.div_mod k rs ltac:(lia)) as Hdm.
  pose proof (Z.mod_pos_bound k rs ltac:(lia)) as Hr.
  destruct (Z.eqb_spec (k mod rs) 0) as [H0|H0].
  - assert ((k - 1) / rs = k / rs - 1) as ->; [|lia].
    symmetry. apply (Z.div_unique _ _ _ (rs - 1)); lia.
  - assert ((k - 1) / rs = k / rs) as ->; [|lia].
    symmetry. apply (Z.div_unique _ _ _ (k mod rs - 1)); lia.
Qed.

Lemma enum_from_snoc {A} (s : nat) (l : list A) (x : A) :
  enum_from s (l ++ [x]) = enum_from s l ++ [(Z.of_nat (s + length l), x)].
Proof. by rewrite enum_from_app. Qed.

Lemma length_border_rows (self : Renderer) (colour : Z) (m : list (list Z)) :
  1 <= region_size self -> m <> [] ->
  Z.of_nat (length (concat (map (border_rows self colour) (enumerate m))))
  = len m + 2 * ((len m - 1) / region_size self).
Proof.
  intros Hrs. induction m as [|row m IH] using rev_ind; [done|]. intros _.
  rewrite enumerate_enum_from, enum_from_snoc, map_app, concat_app, length_app.
  rewrite <- enumerate_enum_from. unfold len in *. rewrite length_app.
  cbn [map concat length border_rows]. rewrite app_nil_r, length_app.
  cbn [length]. rewrite Nat.add_0_l.
  destruct m as [|row' m'].
  - simpl. rewrite Z.div_0_l by lia. done.
  - specialize (IH ltac:(done)).
    set (k := length (row' :: m')) in *.
    assert (1 <= Z.of_nat k) by (subst k; simpl; lia).
    replace (Z.of_nat (k + 1)%nat - 1) with (Z.of_nat k) by lia.
    rewrite (div_step (region_size self) (Z.of_nat k)) by lia.
    replace (0 <? Z.of_nat k) with true by (symmetry; apply Z.ltb_lt; lia).
    cbn [andb].
    destruct (Z.of_nat k mod region_size self =? 0); simpl length; lia.
Qed.

(** The rows of the bordered grid when [regions] need not divide.  For a
    non-empty grid, a region size of at least 1 and no quiet zone,
    [add_border] returns, adds [2*regions] to [width] and [height], and the
    matrix it builds has [n + 2 + 2*((n-1) // region_size)] rows for [n]
    input rows: two more than the input for each multiple of the region size
    below [n], whatever [regions] is. *)
Theorem add_border_row_count (self : Renderer) (colour : Z) :
  quiet_zone self = 0 -> 1 <= region_size self -> matrix self <> [] ->
  exists b,
    add_border self colour = Ok b /\
    len (matrix b)
    = len (matrix self) + 2
      + 2 * ((len (matrix self) - 1) / region_size self) /\
    width b = width self + 2 * regions self /\
    height b = height self + 2 * regions self.
Proof.
  intros Hq Hrs Hne. eexists. split; [apply add_border_ok; lia|].
  cbn [matrix width height]. unfold grown. rewrite Hq.
  split; [|split; lia].
  unfold len. rewrite !length_app, !repeat_length.
  change (Z.to_nat (1 + 0)) with 1%nat.
  pose proof (length_border_rows self colour (matrix self) Hrs Hne) as H.
  unfold len in H. lia.
Qed.

(** Ten rows with a region size of 3: 18 rows are built, and the width
    field is 16. *)
Lemma add_border_row_count_witness :
  exists b,
    add_border (mkRenderer 10 10 3 3 0 (zeros 10 10)) 0 = Ok b /\
    len (matrix b) = 18 /\ width b = 16.
Proof.
  destruct (add_border_row_count (mkRenderer 10 10 3 3 0 (zeros 10 10)) 0)
    as (b & Hb & Hrows & Hw & _).
  - reflexivity.
  - simpl. lia.
  - discriminate.
  - exists b. split; [exact Hb|]. split; [exact Hrows | exact Hw].
Defined.

(** ** The box of the DXF drawing *)

Lemma cell_at_bounds (m : list (list Z)) (x y val : Z) :
  cell_at m (x, y) = Some val ->
  exists row, m !! Z.to_nat y = Some row /\
              0 <= y < len m /\ 0 <= x < len row.
Proof.
  unfold cell_at. intros H.
  destruct ((0 <=? x) && (0 <=? y)) eqn:E; [|done].
  apply andb_true_iff in E as [Hx Hy].
  destruct (m !! Z.to_nat y) as [row|] eqn:Hrow; [|done].
  exists row. split; [done|].
  apply lookup_lt_Some in Hrow, H. unfold len. lia.
Qed.

(** The drawing stays in its box.  For a cell size of at least 0, a grid
    that has no more rows than the [height] field and no row longer than
    [W], every corner of every SOLID entity of the document lies between 0
    and [W*cellsize] horizontally and between 0 and [height*cellsize]
    vertically. *)
Theorem get_dxf_bounding_box (self : Renderer) (cellsize W : Z)
  (inverse : bool) (units : string) :
  0 <= cellsize ->
  len (matrix self) <= height self ->
  Forall (fun row => len row <= W) (matrix self) ->
  exists cells,
    text_lines (get_dxf self cellsize inverse units)
    = header_lines (if decide (units = "mm"%string) then 4 else 0)
      ++ flat_map (fun p => solid_lines (cell_solid self cellsize p)) cells
      ++ footer_lines ++ [""%string] /\
    Forall (fun p =>
              Forall (fun corner =>
                        0 <= corner.1 <= W * cellsize /\
                        0 <= corner.2 <= height self * cellsize)
                     [corner1 (cell_solid self cellsize p);
                      corner2 (cell_solid self cellsize p);
                      corner3 (cell_solid self cellsize p);
                      corner4 (cell_solid self cellsize p)]) cells.
Proof.
  intros Hcs Hrows Hcols. exists (foreground_cells self inverse).
  split; [apply get_dxf_lines|].
  apply Forall_forall. intros [x y] Hp.
  apply elem_of_foreground_cells in Hp as (val & Hcell & _).
  apply cell_at_bounds in Hcell as (row & Hrow & Hy & Hx).
  assert (len row <= W) as HW.
  { rewrite Forall_forall in Hcols. apply Hcols.
    apply list_elem_of_lookup. eauto. }
  unfold cell_solid. cbn [corner1 corner2 corner3 corner4].
  repeat constructor; cbn [fst snd]; nia.
Qed.

(** The drawing of the 2x2 grid [[1; 0]; [0; 1]] at cell size 10. *)
Lemma get_dxf_bounding_box_witness :
  exists cells,
    text_lines (get_dxf (grid [[1; 0]; [0; 1]]) 10 false "mm")
    = header_lines 4
      ++ flat_map (fun p => solid_lines (cell_solid (grid [[1; 0]; [0; 1]]) 10 p))
                  cells
      ++ footer_lines ++ [""%string] /\
    Forall (fun p =>
              Forall (fun corner =>
                        0 <= corner.1 <= 2 * 10 /\ 0 <= corner.2 <= 2 * 10)
                     [corner1 (cell_solid (grid [[1; 0]; [0; 1]]) 10 p);
                      corner2 (cell_solid (grid [[1; 0]; [0; 1]]) 10 p);
                      corner3 (cell_solid (grid [[1; 0]; [0; 1]]) 10 p);
                      corner4 (cell_solid (grid [[1; 0]; [0; 1]]) 10 p)]) cells.
Proof.
  apply (get_dxf_bounding_box (grid [[1; 0]; [0; 1]]) 10 2 false "mm").
  - lia.
  - by_decide.
  - by_decide.
Defined.

(** ** From the constructor to the encoders *)

Lemma cell_at_elem (m : list (list Z)) (p : Z * Z) (c : Z) :
  cell_at m p = Some c -> exists row, row ∈ m /\ c ∈ row.
Proof.
  destruct p as [x y]. intros H.
  destruct (cell_at_bounds m x y c H) as (row & Hrow & _ & _).
  unfold cell_at in H. destruct ((0 <=? x) && (0 <=? y)); [|done].
  rewrite Hrow in H. exists row.
  split; apply list_elem_of_lookup; eauto.
Qed.

Lemma cell_at_nat (m : list (list Z)) (row : list Z) (x y : nat) (c : Z) :
  m !! y = Some row -> row !! x = Some c ->
  cell_at m (Z.of_nat x, Z.of_nat y) = Some c.
Proof.
  intros Hrow Hc. unfold cell_at.
  replace ((0 <=? Z.of_nat x) && (0 <=? Z.of_nat y)) with true
    by (symmetry; apply andb_true_iff; split; apply Z.leb_le, Nat2Z.is_nonneg).
  by rewrite !Nat2Z.id, Hrow.
Qed.

Lemma get_buffer_length (self : Renderer) (cellsize : Z) :
  1 <= cellsize -> binary (matrix self) -> well_formed self ->
  exists buf, get_buffer self cellsize = Ok buf /\
              len buf = width self * cellsize * (height self * cellsize).
Proof.
  intros Hcs Hbin [Hw Hh]. eexists. split; [by apply get_buffer_ok|].
  unfold len in *.
  rewrite (length_concat_uniform _
             (Z.to_nat cellsize * (Z.to_nat (height self) * Z.to_nat cellsize))).
  - rewrite length_map, length_rev, <- Hw.
    destruct (matrix self) as [|row0 rows]; [simpl; lia|].
    apply Forall_inv in Hh. rewrite !Nat2Z.inj_mul, !Z2Nat.id by lia. ring.
  - apply Forall_map, Forall_rev. eapply Forall_impl; [exact Hh|].
    intros row Hrow; simpl. rewrite length_pixel_block.
    simpl in Hrow. by replace (Z.to_nat (height self)) with (length row) by lia.
Qed.

Lemma get_ascii_parse (self : Renderer) :
  binary (matrix self) -> matrix self <> [] ->
  exists text, get_ascii self = Ok text /\
               parse_ascii text = Some (matrix self).
Proof.
  intros Hbin Hne. exists (unlines (map row_text (matrix self))). split.
  - rewrite (get_ascii_ok _ Hbin). f_equal. apply join_lines.
    by destruct (matrix self).
  - unfold parse_ascii. rewrite text_lines_unlines, removelast_last.
    + by apply parse_rows_text.
    + apply Forall_map, Forall_forall. intros row _. apply row_text_one_line.
Qed.

(** A valid symbol always renders.  For a non-empty square grid of 0/1
    cells and [regions >= 1] dividing its side, construction succeeds, the
    constructed grid has only 0/1 cells and its fields agree with its
    matrix, so that [get_buffer] (for a cell size of at least 1) and
    [get_ascii] return: the buffer holds one byte for each of the
    [(n + 2*regions) * cellsize] squared pixels and the text reads back as the
    constructed grid. *)
Theorem init_renders (m : list (list Z)) (n : nat) (R cellsize : Z) :
  (0 < n)%nat -> square n m -> 1 <= R -> Z.of_nat n mod R = 0 ->
  binary m -> 1 <= cellsize ->
  exists r buf text,
    init m R = Ok r /\
    binary (matrix r) /\ well_formed r /\
    get_buffer r cellsize = Ok buf /\
    len buf = (Z.of_nat n + 2 * R) * cellsize * ((Z.of_nat n + 2 * R) * cellsize) /\
    get_ascii r = Ok text /\
    parse_ascii text = Some (matrix r).
Proof.
  intros Hn Hm HR Hmod Hbin Hcs.
  destruct (init_valid m n R Hn Hm HR Hmod) as (m' & Hinit & _ & Hrect & _).
  destruct (init_cells m n R Hn Hm HR Hmod) as (r & Hinit' & Hcells).
  destruct (valid_layout n R Hn HR Hmod) as (Hcs' & Hc & Hs & HcR & HsR).
  assert (Z.of_nat (Z.to_nat R * (Z.to_nat (Z.of_nat n / R) + 2))
          = Z.of_nat n + 2 * R) as Hside by nia.
  rewrite Hinit in Hinit'. injection Hinit' as <-.
  cbn [matrix set_matrix] in Hcells.
  set (side := (Z.to_nat R * (Z.to_nat (Z.of_nat n / R) + 2))%nat) in *.
  destruct Hrect as [Hh Hw].
  assert (binary m') as Hbin'.
  { apply Forall_forall. intros row Hrow. apply Forall_forall. intros c Hc'.
    apply list_elem_of_lookup in Hrow as [y Hy].
    apply list_elem_of_lookup in Hc' as [x Hx].
    assert (length row = side) as Hlen.
    { rewrite Forall_forall in Hw. apply Hw. apply list_elem_of_lookup. eauto. }
    pose proof (lookup_lt_Some _ _ _ Hy). pose proof (lookup_lt_Some _ _ _ Hx).
    pose proof (cell_at_nat m' row x y c Hy Hx) as Hcell.
    rewrite Hcells in Hcell by lia.
    destruct (border_cell _ _).
    - injection Hcell as <-. destruct (handle_cell _ _); [by right|by left].
    - apply cell_at_elem in Hcell as (row0 & Hrow0 & Hc0).
      unfold binary in Hbin. rewrite Forall_forall in Hbin.
      specialize (Hbin _ Hrow0). rewrite Forall_forall in Hbin. by apply Hbin. }
  match type of Hinit with _ = Ok ?x => set (r := x) in * end.
  assert (well_formed r) as Hwf.
  { split; cbn [matrix width height r set_matrix]; unfold len.
    - by rewrite Hh.
    - eapply Forall_impl; [exact Hw|]. intros row Hrow. simpl in *. by rewrite Hrow. }
  destruct (get_buffer_length r cellsize Hcs Hbin' Hwf) as (buf & Hbuf & Hlen).
  destruct (get_ascii_parse r Hbin') as (text & Htext & Hparse).
  { cbn [matrix r set_matrix]. intros ->. simpl in Hh. lia. }
  exists r, buf, text. split; [done|]. split; [done|]. split; [done|].
  split; [done|]. split; [|done].
  rewrite Hlen. cbn [width height r set_matrix]. by rewrite Hside.
Qed.

(** The 2x2 grid [[1; 0]; [0; 1]] with one region at cell size 3. *)
Lemma init_renders_witness :
  exists r buf text,
    init [[1; 0]; [0; 1]] 1 = Ok r /\
    get_buffer r 3 = Ok buf /\ len buf = 144 /\
    get_ascii r = Ok text /\ parse_ascii text = Some (matrix r).
Proof.
  destruct (init_renders [[1; 0]; [0; 1]] 2 1 3)
    as (r & buf & text & H1 & _ & _ & H2 & H3 & H4 & H5).
  - lia.
  - by_decide.
  - lia.
  - reflexivity.
  - by_decide.
  - lia.
  - exists r, buf, text. repeat split; assumption.
Defined.
